(** * tetrika: the [strict] decorator (task1) and the Wikipedia category
      scraper (task2)

    A shallow embedding of [task1/solution.py] and [task2/solution.py].
    Python values, exceptions, dictionaries and the BeautifulSoup document
    tree are modelled as far as the two programs use them.  Builtins whose
    result depends on tables outside the repository ([repr], [str.lower],
    [urllib.parse.urljoin]) are section variables. *)

From Stdlib Require Import ZArith NArith List String Ascii Bool Lia.
From Stdlib Require Import DecimalString DecimalZ.
From Stdlib Require Import PrimFloat SpecFloat FloatOps.
Import ListNotations.

Set Implicit Arguments.

(* ================================================================= *)
(** ** Python [str]: sequences of Unicode code points *)

Module PyStr.

Definition char := N.
Definition pystr := list char.

(** Source literals are written as in the [.py] files and decoded from
    the UTF-8 bytes of the Rocq string. *)
Fixpoint decode (bs : list N) : pystr :=
  match bs with
  | [] => []
  | b :: r =>
      if (b <? 128)%N then b :: decode r
      else if (b <? 224)%N then
        match r with
        | c1 :: r' => ((b mod 32) * 64 + c1 mod 64)%N :: decode r'
        | _ => []
        end
      else if (b <? 240)%N then
        match r with
        | c1 :: c2 :: r' =>
            ((b mod 16) * 4096 + (c1 mod 64) * 64 + c2 mod 64)%N :: decode r'
        | _ => []
        end
      else
        match r with
        | c1 :: c2 :: c3 :: r' =>
            ((b mod 8) * 262144 + (c1 mod 64) * 4096
             + (c2 mod 64) * 64 + c3 mod 64)%N :: decode r'
        | _ => []
        end
  end.

Definition utf8 (s : string) : pystr :=
  decode (map N_of_ascii (list_ascii_of_string s)).

(** [s == t] *)
Fixpoint eqb (s t : pystr) : bool :=
  match s, t with
  | [], [] => true
  | a :: s', b :: t' => (a =? b)%N && eqb s' t'
  | _, _ => false
  end.

(** [s.startswith(p)] *)
Fixpoint startswith (s p : pystr) : bool :=
  match p, s with
  | [], _ => true
  | a :: p', b :: s' => (a =? b)%N && startswith s' p'
  | _ :: _, [] => false
  end.

(** [t in s] for two strings: [t] occurs in [s] as a contiguous run. *)
Fixpoint contains (s t : pystr) : bool :=
  startswith s t ||
  match s with
  | [] => false
  | _ :: s' => contains s' t
  end.

(** [sep.join(parts)] *)
Fixpoint join (sep : pystr) (parts : list pystr) : pystr :=
  match parts with
  | [] => []
  | [p] => p
  | p :: rest => p ++ sep ++ join sep rest
  end.

(** The code points for which [str.isspace] holds; [str.strip()] and
    the [\S+] of the class-attribute splitter use this set. *)
Definition isspace (c : char) : bool :=
  ((9 <=? c) && (c <=? 13) || (28 <=? c) && (c <=? 32)
   || (c =? 133) || (c =? 160) || (c =? 5760)
   || (8192 <=? c) && (c <=? 8202)
   || (c =? 8232) || (c =? 8233) || (c =? 8239) || (c =? 8287)
   || (c =? 12288))%N.

Fixpoint lstrip (s : pystr) : pystr :=
  match s with
  | c :: s' => if isspace c then lstrip s' else s
  | [] => []
  end.

Definition rstrip (s : pystr) : pystr := rev (lstrip (rev s)).

(** [s.strip()] *)
Definition strip (s : pystr) : pystr := rstrip (lstrip s).

(** [s.split()]: the maximal runs of non-whitespace code points. *)
Fixpoint split_ws_aux (cur : pystr) (s : pystr) : list pystr :=
  match s with
  | [] => match cur with [] => [] | _ => [rev cur] end
  | c :: s' =>
      if isspace c
      then match cur with
           | [] => split_ws_aux [] s'
           | _ => rev cur :: split_ws_aux [] s'
           end
      else split_ws_aux (c :: cur) s'
  end.

Definition split_ws (s : pystr) : list pystr := split_ws_aux [] s.

(** Decimal text of an integer, as [str(int)] prints it. *)
Definition of_Z (z : Z) : pystr :=
  utf8 (NilEmpty.string_of_int (Z.to_int z)).

Definition of_nat (n : nat) : pystr := of_Z (Z.of_nat n).

(** [str.lower] restricted to the two alphabets that occur in the
    category pages: ASCII and the Cyrillic block U+0400..U+045F.  Code
    points outside them are left as they are. *)
Definition lower_char (c : char) : char :=
  if ((65 <=? c) && (c <=? 90))%N then (c + 32)%N
  else if ((1024 <=? c) && (c <=? 1039))%N then (c + 80)%N
  else if ((1040 <=? c) && (c <=? 1071))%N then (c + 32)%N
  else c.

Definition lower_basic (s : pystr) : pystr := map lower_char s.

End PyStr.

Import PyStr.

(* ================================================================= *)
(** ** Python values, classes and exceptions used by task1 *)

Module Py.

(** The builtin classes that the calls of [task1/solution.py] involve. *)
Inductive pytype := Tobject | Tint | Tbool | Tfloat | Tstr | TNoneType.

Inductive value :=
| VInt (z : Z)
| VBool (b : bool)
| VFloat (f : float)
| VStr (s : pystr)
| VNone.

(** [type(v)] *)
Definition type_of (v : value) : pytype :=
  match v with
  | VInt _ => Tint
  | VBool _ => Tbool
  | VFloat _ => Tfloat
  | VStr _ => Tstr
  | VNone => TNoneType
  end.

(** [c.__mro__]: [bool] derives from [int], everything from [object]. *)
Definition mro (c : pytype) : list pytype :=
  match c with
  | Tobject => [Tobject]
  | Tbool => [Tbool; Tint; Tobject]
  | _ => [c; Tobject]
  end.

Definition pytype_eqb (c d : pytype) : bool :=
  match c, d with
  | Tobject, Tobject | Tint, Tint | Tbool, Tbool
  | Tfloat, Tfloat | Tstr, Tstr | TNoneType, TNoneType => true
  | _, _ => false
  end.

(** [issubclass(c, d)] *)
Definition issubclass (c d : pytype) : bool := existsb (pytype_eqb d) (mro c).

(** [isinstance(a, types)] with a tuple of classes as second argument. *)
Definition isinstance (a : value) (types : list pytype) : bool :=
  existsb (issubclass (type_of a)) types.

(** [c.__name__] *)
Definition type_name (c : pytype) : pystr :=
  match c with
  | Tobject => utf8 "object"
  | Tint => utf8 "int"
  | Tbool => utf8 "bool"
  | Tfloat => utf8 "float"
  | Tstr => utf8 "str"
  | TNoneType => utf8 "NoneType"
  end.

Inductive exn :=
| TypeError (msg : pystr)
| OverflowError (msg : pystr).

Inductive outcome (A : Type) :=
| Return (a : A)
| Raise (e : exn).
Arguments Return {A} a.
Arguments Raise {A} e.

(** [all(flags)] *)
Definition all (flags : list bool) : bool := forallb (fun b => b) flags.

(** *** The [+] operator *)

(** An [int] (or [bool]) operand of an arithmetic operator. *)
Definition as_int (v : value) : option Z :=
  match v with
  | VInt z => Some z
  | VBool b => Some (if b then 1 else 0)%Z
  | _ => None
  end.

(** Conversion of an [int] to [float]: correctly rounded to binary64,
    [OverflowError] beyond its range. *)
Definition float_of_int (z : Z) : outcome float :=
  let f := SF2Prim (binary_normalize prec emax z 0 false) in
  if is_infinity f
  then Raise (OverflowError (utf8 "int too large to convert to float"))
  else Return f.

Definition unsupported_add (a b : value) : exn :=
  TypeError (utf8 "unsupported operand type(s) for +: '"
             ++ type_name (type_of a) ++ utf8 "' and '"
             ++ type_name (type_of b) ++ utf8 "'").

(** [a + b] *)
Definition py_add (a b : value) : outcome value :=
  match a, b with
  | VStr s, VStr t => Return (VStr (s ++ t))
  | VStr _, _ =>
      Raise (TypeError (utf8 "can only concatenate str (not " ++ [34%N]
                        ++ type_name (type_of b) ++ [34%N]
                        ++ utf8 ") to str"))
  | VFloat x, VFloat y => Return (VFloat (x + y)%float)
  | VFloat x, _ =>
      match as_int b with
      | Some z =>
          match float_of_int z with
          | Return y => Return (VFloat (x + y)%float)
          | Raise e => Raise e
          end
      | None => Raise (unsupported_add a b)
      end
  | _, VFloat y =>
      match as_int a with
      | Some z =>
          match float_of_int z with
          | Return x => Return (VFloat (x + y)%float)
          | Raise e => Raise e
          end
      | None => Raise (unsupported_add a b)
      end
  | _, _ =>
      match as_int a, as_int b with
      | Some x, Some y => Return (VInt (x + y))
      | _, _ => Raise (unsupported_add a b)
      end
  end.

(** *** Binding the arguments of a call *)

Definition quoted (s : pystr) : pystr := utf8 "'" ++ s ++ utf8 "'".

Definition plural (n : nat) : pystr :=
  match n with 1%nat => [] | _ => utf8 "s" end.

(** One slot per parameter, filled from the positional arguments. *)
Fixpoint fill_positional (params : list pystr) (args : list value)
  : list (pystr * option value) :=
  match params, args with
  | p :: ps, a :: rest => (p, Some a) :: fill_positional ps rest
  | p :: ps, [] => (p, None) :: fill_positional ps []
  | [], _ => []
  end.

Fixpoint fill_keyword (fname : pystr) (slots : list (pystr * option value))
         (k : pystr) (v : value) : outcome (list (pystr * option value)) :=
  match slots with
  | [] =>
      Raise (TypeError (fname ++ utf8 "() got an unexpected keyword argument "
                        ++ quoted k))
  | (p, s) :: rest =>
      if eqb p k then
        match s with
        | Some _ =>
            Raise (TypeError (fname
                              ++ utf8 "() got multiple values for argument "
                              ++ quoted k))
        | None => Return ((p, Some v) :: rest)
        end
      else
        match fill_keyword fname rest k v with
        | Return rest' => Return ((p, s) :: rest')
        | Raise e => Raise e
        end
  end.

Fixpoint fill_keywords (fname : pystr) (slots : list (pystr * option value))
         (kwargs : list (pystr * value))
  : outcome (list (pystr * option value)) :=
  match kwargs with
  | [] => Return slots
  | (k, v) :: rest =>
      match fill_keyword fname slots k v with
      | Return slots' => fill_keywords fname slots' rest
      | Raise e => Raise e
      end
  end.

Definition missing_of (slots : list (pystr * option value)) : list pystr :=
  map fst (filter (fun s => match snd s with None => true | _ => false end)
                  slots).

Fixpoint format_missing (names : list pystr) : pystr :=
  match names with
  | [] => []
  | [a] => quoted a
  | [a; b] => quoted a ++ utf8 " and " ++ quoted b
  | [a; b; c] => quoted a ++ utf8 ", " ++ quoted b ++ utf8 ", and " ++ quoted c
  | a :: rest => quoted a ++ utf8 ", " ++ format_missing rest
  end.

Fixpoint filled (slots : list (pystr * option value)) : list value :=
  match slots with
  | [] => []
  | (_, Some v) :: rest => v :: filled rest
  | (_, None) :: rest => filled rest
  end.

(** The values of the parameters [params] (positional-or-keyword, no
    defaults) for the call [fname( *args, **kwargs)], or the [TypeError]
    of the interpreter. *)
Definition bind_arguments (fname : pystr) (params : list pystr)
           (args : list value) (kwargs : list (pystr * value))
  : outcome (list value) :=
  match fill_keywords fname (fill_positional params args) kwargs with
  | Raise e => Raise e
  | Return slots =>
      if (List.length params <? List.length args)%nat then
        Raise (TypeError
                 (fname ++ utf8 "() takes " ++ of_nat (List.length params)
                  ++ utf8 " positional argument" ++ plural (List.length params)
                  ++ utf8 " but " ++ of_nat (List.length args)
                  ++ (if (List.length args =? 1)%nat
                      then utf8 " was given" else utf8 " were given")))
      else
        match missing_of slots with
        | [] => Return (filled slots)
        | names =>
            Raise (TypeError
                     (fname ++ utf8 "() missing " ++ of_nat (List.length names)
                      ++ utf8 " required positional argument"
                      ++ plural (List.length names) ++ utf8 ": "
                      ++ format_missing names))
        end
  end.

End Py.

Import Py.

(* ================================================================= *)
(** ** task1/solution.py: the [strict] decorator *)

Module Task1.

Section Strict.

(** What a function body can read and change besides its arguments. *)
Variable W : Type.

(** The builtin [repr], which the f-string of the error message
    applies to every element of [args] and [kwargs]. *)
Variable repr : value -> pystr.

(** A computation that returns or raises and may change the world. *)
Definition M (A : Type) : Type := W -> outcome A * W.

Definition raise {A : Type} (e : exn) : M A := fun w => (Raise e, w).
Definition lift {A : Type} (o : outcome A) : M A := fun w => (o, w).

(** A function object: what [strict] reads of it, and its call
    [func( *args, **kwargs)]. *)
Record pyfunc := {
  __name__ : pystr;
  __annotations__ : list (pystr * pytype);
  __call__ : list value -> list (pystr * value) -> M value
}.

(** [str(args)] for the tuple of positional arguments. *)
Definition str_tuple (args : list value) : pystr :=
  match args with
  | [] => utf8 "()"
  | [a] => utf8 "(" ++ repr a ++ utf8 ",)"
  | _ => utf8 "(" ++ join (utf8 ", ") (map repr args) ++ utf8 ")"
  end.

(** [str(kwargs)] for the dict of keyword arguments. *)
Definition str_dict (kwargs : list (pystr * value)) : pystr :=
  utf8 "{"
  ++ join (utf8 ", ")
          (map (fun kv => repr (VStr (fst kv)) ++ utf8 ": " ++ repr (snd kv))
               kwargs)
  ++ utf8 "}".

Definition param_types_of (func : pyfunc) : list pytype :=
  map snd (filter (fun kv => negb (eqb (fst kv) (utf8 "return")))
                  (__annotations__ func)).

Definition error_message (func : pyfunc) (args : list value)
           (kwargs : list (pystr * value)) : pystr :=
  utf8 "Некорректные типы аргументов для функции "
  ++ __name__ func ++ utf8 ": " ++ str_tuple args ++ utf8 " "
  ++ str_dict kwargs.

Definition wrapper (func : pyfunc) (args : list value)
           (kwargs : list (pystr * value)) : M value :=
  let param_types := param_types_of func in
  let args_ok := map (fun a => isinstance a param_types) args in
  let kwargs_ok := map (fun kv => isinstance (snd kv) param_types) kwargs in
  if negb (all args_ok) || negb (all kwargs_ok)
  then raise (TypeError (error_message func args kwargs))
  else __call__ func args kwargs.

(** [@wraps(func)] gives the wrapper the name and the annotations of
    [func]. *)
Definition strict (func : pyfunc) : pyfunc :=
  {| __name__ := __name__ func;
     __annotations__ := __annotations__ func;
     __call__ := wrapper func |}.

(** [def sum_two(a: int, b: int) -> int: return a + b], before
    decoration. *)
Definition sum_two_undecorated : pyfunc :=
  {| __name__ := utf8 "sum_two";
     __annotations__ :=
       [(utf8 "a", Tint); (utf8 "b", Tint); (utf8 "return", Tint)];
     __call__ := fun args kwargs =>
       match bind_arguments (utf8 "sum_two") [utf8 "a"; utf8 "b"]
                            args kwargs with
       | Return [a; b] => lift (py_add a b)
       | Return _ => raise (TypeError [])  (* not reached: two slots *)
       | Raise e => raise e
       end |}.

Definition sum_two : pyfunc := strict sum_two_undecorated.

End Strict.

Arguments __name__ {W} p.
Arguments __annotations__ {W} p.
Arguments __call__ {W} p.
Arguments Build_pyfunc {W}.

End Task1.

(* ================================================================= *)
(** ** Python [dict] with [str] keys, in insertion order *)

Module PyDict.

Section Dict.
Variable V : Type.

Definition dict := list (pystr * V).

(** [d.get(k)] *)
Fixpoint lookup (d : dict) (k : pystr) : option V :=
  match d with
  | [] => None
  | (k', v) :: rest => if eqb k' k then Some v else lookup rest k
  end.

(** [d.get(k, default)] *)
Definition get (d : dict) (k : pystr) (default : V) : V :=
  match lookup d k with
  | Some v => v
  | None => default
  end.

(** [d[k] = v]: an existing key keeps its place, a new one goes last. *)
Fixpoint set (d : dict) (k : pystr) (v : V) : dict :=
  match d with
  | [] => [(k, v)]
  | (k', v') :: rest =>
      if eqb k' k then (k', v) :: rest else (k', v') :: set rest k v
  end.

Definition values (d : dict) : list V := map snd d.

(** [d1 == d2] for dictionaries: the same keys with the same values,
    whatever the order. *)
Definition equal (d1 d2 : dict) : Prop :=
  forall k, lookup d1 k = lookup d2 k.

End Dict.

End PyDict.

(* ================================================================= *)
(** ** The BeautifulSoup document tree and the queries task2 makes *)

Module Soup.

(** The classes of text nodes: plain [NavigableString], [CData],
    [Comment], and the remaining subclasses ([Script], [Stylesheet],
    [Doctype], ...). *)
Inductive string_kind := Text | CData | Comment | OtherString.

(** Attribute values are kept as written in the markup; the tokens of a
    [class] attribute are [class_tokens]. *)
#[local] Unset Elimination Schemes.
Inductive node :=
| Tag (name : pystr) (attrs : list (pystr * pystr)) (contents : list node)
| NavigableString (kind : string_kind) (s : pystr).
#[local] Set Elimination Schemes.

(** [tag.descendants]: every node below the tag, in document order. *)
Fixpoint descendants (n : node) : list node :=
  match n with
  | Tag _ _ contents => flat_map (fun c => c :: descendants c) contents
  | NavigableString _ _ => []
  end.

(** [tag.attrs.get(key)] *)
Fixpoint attr (attrs : list (pystr * pystr)) (key : pystr) : option pystr :=
  match attrs with
  | [] => None
  | (k, v) :: rest => if eqb k key then Some v else attr rest key
  end.

(** The parser stores the value of [class] as the list of its
    whitespace-separated tokens. *)
Definition class_tokens (v : pystr) : list pystr := split_ws v.

(** Whether the value of attribute [key] matches the wanted string: a
    [class] matches when one of its tokens does, or the tokens joined by
    single spaces do; an absent attribute matches only the empty
    string. *)
Definition attr_matches (attrs : list (pystr * pystr)) (key want : pystr)
  : bool :=
  match attr attrs key with
  | None => match want with [] => true | _ => false end
  | Some v =>
      if eqb key (utf8 "class") then
        existsb (fun t => eqb t want) (class_tokens v)
        || eqb (join (utf8 " ") (class_tokens v)) want
      else eqb v want
  end.

(** [tag.string]: the only child when it is a string, the [.string] of
    the only child when it is a tag, [None] otherwise. *)
Fixpoint string_of (n : node) : option pystr :=
  match n with
  | NavigableString _ s => Some s
  | Tag _ _ [c] =>
      match c with
      | NavigableString _ s => Some s
      | Tag _ _ _ => string_of c
      end
  | Tag _ _ _ => None
  end.

(** The filter of [find] and [find_all]: a tag of the given name whose
    attributes match and, when a non-empty [string=] is given, whose
    [.string] equals it. *)
Definition matches (name : pystr) (want : list (pystr * pystr))
           (string : option pystr) (n : node) : bool :=
  match n with
  | NavigableString _ _ => false
  | Tag nm attrs _ =>
      eqb nm name
      && forallb (fun kv => attr_matches attrs (fst kv) (snd kv)) want
      && match string with
         | None | Some [] => true
         | Some s =>
             match string_of n with
             | Some s' => eqb s' s
             | None => false
             end
         end
  end.

(** [tag.find_all(name, attrs=want, string=string)] *)
Definition find_all (n : node) (name : pystr) (want : list (pystr * pystr))
           (string : option pystr) : list node :=
  filter (matches name want string) (descendants n).

(** [tag.find(name, attrs=want, string=string)]: the first result of
    [find_all], or [None]. *)
Definition find (n : node) (name : pystr) (want : list (pystr * pystr))
           (string : option pystr) : option node :=
  hd_error (find_all n name want string).

(** [tag.text]: the plain and CDATA strings below the tag, joined. *)
Definition text (n : node) : pystr :=
  flat_map (fun d => match d with
                     | NavigableString Text s
                     | NavigableString CData s => s
                     | _ => []
                     end)
           (descendants n).

End Soup.

(* ================================================================= *)
(** ** task2/solution.py: [ParseWikiAnimals] *)

Module Task2.

Import Soup.

Definition BASE_URL : pystr :=
  utf8 "https://ru.wikipedia.org/wiki/Категория:Животные_по_алфавиту".
Definition TIMEOUT : Z := 30.
Definition russian_letters : pystr := utf8 "абвгдеёжзийклмнопрстуфхцчшщъыьэюя".

(** What the logger receives. *)
Inductive log_level := DEBUG | INFO | WARNING.

Record log_record := { level : log_level; message : pystr }.

Definition warning (msg : pystr) : log_record :=
  {| level := WARNING; message := msg |}.
Definition debug (msg : pystr) : log_record :=
  {| level := DEBUG; message := msg |}.

(** The fields of a [ParseWikiAnimals] instance that its methods read
    and write (the HTTP client is left out). *)
Record ParseWikiAnimals := {
  base_url : pystr;
  timeout : Z;
  pages_processed : Z;
  letters_result : PyDict.dict Z;
  _only_russian : bool;
  _russian_letters : pystr
}.

(** [ParseWikiAnimals(parse_only_russian_letters)] *)
Definition __init__ (parse_only_russian_letters : bool) : ParseWikiAnimals :=
  {| base_url := BASE_URL;
     timeout := TIMEOUT;
     pages_processed := 0;
     letters_result := [];
     _only_russian := parse_only_russian_letters;
     _russian_letters := russian_letters |}.

(** [self.letters_result = d] *)
Definition with_letters_result (self : ParseWikiAnimals) (d : PyDict.dict Z)
  : ParseWikiAnimals :=
  {| base_url := base_url self;
     timeout := timeout self;
     pages_processed := pages_processed self;
     letters_result := d;
     _only_russian := _only_russian self;
     _russian_letters := _russian_letters self |}.

(** [sum(self.letters_result.values())] *)
Definition total_animals (self : ParseWikiAnimals) : Z :=
  fold_left Z.add (PyDict.values (letters_result self)) 0%Z.

Section Methods.

(** [str.lower] and [urllib.parse.urljoin]. *)
Variable lower : pystr -> pystr.
Variable urljoin : pystr -> pystr -> pystr.

(** The body of [for group in category_groups]; [continue] leaves
    [self] as it is. *)
Definition parse_group (self : ParseWikiAnimals) (group : node)
  : ParseWikiAnimals :=
  match find group (utf8 "h3") [] None, find group (utf8 "ul") [] None with
  | Some letter_tag, Some ul_tag =>
      let letter := strip (text letter_tag) in
      if _only_russian self
         && negb (contains (_russian_letters self) (lower letter))
      then self
      else
        let count :=
          Z.of_nat (List.length (find_all ul_tag (utf8 "li") [] None)) in
        with_letters_result self
          (PyDict.set (letters_result self) letter
             (PyDict.get (letters_result self) letter 0 + count)%Z)
  | _, _ => self
  end.

(** [_parse_page(self, soup)]: the instance afterwards and the
    records logged by the call. *)
Definition _parse_page (self : ParseWikiAnimals) (soup : node)
  : ParseWikiAnimals * list log_record :=
  match find soup (utf8 "div") [(utf8 "id", utf8 "mw-pages")] None with
  | None => (self, [warning (utf8 "Не найден <div id='mw-pages'>")])
  | Some category_div =>
      match find category_div (utf8 "div")
                 [(utf8 "class", utf8 "mw-content-ltr")] None with
      | None => (self, [warning (utf8 "Не найден блок .mw-content-ltr")])
      | Some content_div =>
          let category_groups :=
            find_all content_div (utf8 "div")
                     [(utf8 "class", utf8 "mw-category-group")] None in
          (fold_left parse_group category_groups self, [])
      end
  end.

(** [_next_page_url(self, soup)]: the URL or [None], and the records
    logged by the call.  [link.has_attr("href")] and [link["href"]] read
    the same table of attributes. *)
Definition _next_page_url (self : ParseWikiAnimals) (soup : node)
  : option pystr * list log_record :=
  let link := find soup (utf8 "a") [] (Some (utf8 "Следующая страница")) in
  match link with
  | Some (Tag _ attrs _) =>
      match attr attrs (utf8 "href") with
      | Some href =>
          let next_url := urljoin (base_url self) href in
          (Some next_url, [debug (utf8 "Следующая страница: " ++ next_url)])
      | None =>
          (None, [debug (utf8 "Ссылка «Следующая страница» не найдена")])
      end
  | _ => (None, [debug (utf8 "Ссылка «Следующая страница» не найдена")])
  end.

End Methods.

End Task2.

(* ================================================================= *)
(** ** The documents of [TestParseWikiAnimals], as parsed *)

Module TestParseWikiAnimals.

Import Soup.
#[local] Open Scope string_scope.

Definition el (name : string) (attrs : list (string * string))
           (contents : list node) : node :=
  Tag (utf8 name) (map (fun kv => (utf8 (fst kv), utf8 (snd kv))) attrs)
      contents.

Definition txt (s : string) : node := NavigableString Text (utf8 s).

(** The soup of a markup fragment: the parser puts it into
    [<html><body>]. *)
Definition document (body : list node) : node :=
  Tag (utf8 "[document]") [] [el "html" [] [el "body" [] body]].

(** One entry of a category list. *)
Definition li (href title : string) : node :=
  el "li" [] [el "a" [("href", href)] [txt title]].

(** One [mw-category-group] with its heading and its list. *)
Definition group (letter : string) (items : list node) : node :=
  el "div" [("class", "mw-category-group")]
     [el "h3" [] [txt letter]; el "ul" [] items].

Definition mw_pages (groups : list node) : node :=
  el "div" [("id", "mw-pages")]
     [el "div" [("class", "mw-content-ltr")] groups].

Definition HTML_PARSE_1 : node :=
  document
    [mw_pages
       [group "А" [li "/wiki/Акула" "Акула";
                   li "/wiki/Амурский_тигр" "Амурский тигр"];
        group "Б" [li "/wiki/Бобр" "Бобр"]]].

Definition HTML_PARSE_ONLY_RU : node :=
  document
    [mw_pages
       [group "Б" [li "/wiki/Бобр" "Бобр"];
        group "C" [li "/wiki/Camel" "Camel"]]].

Definition HTML_NEXT_LINK : node :=
  document
    [el "a" [("href", "/wiki/Категория:Животные_по_алфавиту?pagefrom=Page2")]
        [txt "Следующая страница"]].

Definition HTML_NO_NEXT : node :=
  document [el "p" [] [txt "Конец списка"]].

End TestParseWikiAnimals.

(* ================================================================= *)
(** ** Notions in which the properties are stated *)

Module Notions.

Import Soup Task2 PyDict.

(** [t] occurs in [s]: the meaning of "the message includes ...". *)
Definition infix (t s : pystr) : Prop :=
  exists pre post, s = pre ++ t ++ post.

(** [d[letter] = d.get(letter, 0) + count], the merge statement of
    [_parse_page]. *)
Definition add_entry (d : dict Z) (e : pystr * Z) : dict Z :=
  set d (fst e) (get d (fst e) 0 + snd e)%Z.

(** The sum of the counts that a list of entries holds for [k]. *)
Fixpoint total (k : pystr) (es : list (pystr * Z)) : Z :=
  match es with
  | [] => 0
  | (k', c) :: rest => ((if eqb k' k then c else 0) + total k rest)%Z
  end.

Definition mentions (k : pystr) (es : list (pystr * Z)) : bool :=
  existsb (fun e => eqb (fst e) k) es.

(** The additive merge of two optional counts. *)
Definition merge_counts (a b : option Z) : option Z :=
  match a, b with
  | Some x, Some y => Some (x + y)%Z
  | Some x, None => Some x
  | None, b => b
  end.

Section Entries.
Variable lower : pystr -> pystr.

(** The letter and the count that one group adds, or [None] when the
    loop body takes a [continue]. *)
Definition group_entry (only_russian : bool) (alphabet : pystr)
           (group : node) : option (pystr * Z) :=
  match find group (utf8 "h3") [] None, find group (utf8 "ul") [] None with
  | Some letter_tag, Some ul_tag =>
      let letter := strip (text letter_tag) in
      if only_russian && negb (contains alphabet (lower letter))
      then None
      else Some (letter,
                 Z.of_nat
                   (List.length (find_all ul_tag (utf8 "li") [] None)))
  | _, _ => None
  end.

(** The entries of a list of groups, in order. *)
Definition entries (only_russian : bool) (alphabet : pystr)
           (groups : list node) : list (pystr * Z) :=
  flat_map (fun g => match group_entry only_russian alphabet g with
                     | Some e => [e]
                     | None => []
                     end) groups.

(** The groups that [_parse_page] iterates over, or [None] when one
    of the two containers is not found. *)
Definition page_groups (soup : node) : option (list node) :=
  match find soup (utf8 "div") [(utf8 "id", utf8 "mw-pages")] None with
  | None => None
  | Some category_div =>
      match find category_div (utf8 "div")
                 [(utf8 "class", utf8 "mw-content-ltr")] None with
      | None => None
      | Some content_div =>
          Some (find_all content_div (utf8 "div")
                         [(utf8 "class", utf8 "mw-category-group")] None)
      end
  end.

Definition page_entries (only_russian : bool) (alphabet : pystr)
           (soup : node) : list (pystr * Z) :=
  match page_groups soup with
  | Some groups => entries only_russian alphabet groups
  | None => []
  end.

End Entries.

(** One of the 33 letters: a label of exactly one code point that
    occurs in [russian_letters]. *)
Definition is_alphabet_letter (s : pystr) : Prop :=
  exists c, s = [c] /\ In c russian_letters.

Abbreviation NEXT_LABEL := (utf8 "Следующая страница") (only parsing).

(** What [soup.find('a', string='Следующая страница')] looks for: an
    [a] tag whose [.string] is the label. *)
Definition is_next_anchor (n : node) : Prop :=
  exists attrs contents,
    n = Tag (utf8 "a") attrs contents /\ string_of n = Some NEXT_LABEL.

(** [link["href"]] when the tag has it. *)
Definition href_of (n : node) : option pystr :=
  match n with
  | Tag _ attrs _ => attr attrs (utf8 "href")
  | NavigableString _ _ => None
  end.

End Notions.

Import Notions.

(* ================================================================= *)
(** ** Functions, instances and pages that the examples use *)

Module Fixtures.

Import Task1 Soup Task2 TestParseWikiAnimals.

(** A function of two parameters [(a: int, b: str)] that records each
    invocation in the world (a call counter) and returns [None]. *)
Definition counting_int_str : pyfunc nat :=
  {| __name__ := utf8 "f";
     __annotations__ := [(utf8 "a", Tint); (utf8 "b", Tstr)];
     __call__ := fun _ _ calls => (Return VNone, S calls) |}.

(** A function without annotations, counting its invocations. *)
Definition counting_unannotated : pyfunc nat :=
  {| __name__ := utf8 "g";
     __annotations__ := [];
     __call__ := fun _ _ calls => (Return VNone, S calls) |}.

(** A page whose only group [А] lists two entries, and a page with one
    entry under [А] and one under [Б]. *)
Definition page_a : node :=
  document [mw_pages [group "А" [li "/wiki/Акула" "Акула";
                                 li "/wiki/Аист" "Аист"]]].

Definition page_b : node :=
  document [mw_pages [group "А" [li "/wiki/Альпака" "Альпака"];
                      group "Б" [li "/wiki/Бобр" "Бобр"]]].

(** A group without a list between two complete groups. *)
Definition heading_only : node :=
  el "div" [("class", "mw-category-group")%string]
     [el "h3" [] [txt "Б"]].

Definition page_with_gap : node :=
  document [mw_pages [group "А" [li "/wiki/Акула" "Акула"];
                      heading_only;
                      group "В" [li "/wiki/Волк" "Волк"]]].

(** An instance that has already gone through five pages of another
    site and whose mapping was emptied. *)
Definition emptied : ParseWikiAnimals :=
  {| base_url := utf8 "https://example.org/";
     timeout := 5;
     pages_processed := 5;
     letters_result := [];
     _only_russian := true;
     _russian_letters := russian_letters |}.

(** A page whose only group is labelled with two letters. *)
Definition page_two_letter_label : node :=
  document [mw_pages [group "аб" [li "/wiki/Абак" "Абак"]]].

(** Two anchors with the label of the next-page link, the first one
    without target. *)
Definition linked_anchor : node :=
  el "a" [("href", "/wiki/Page2")%string] [txt "Следующая страница"].

Definition page_two_anchors : node :=
  document [el "a" [] [txt "Следующая страница"]; linked_anchor].

(** An anchor whose text is the label, written in two pieces, the second
    one in bold. *)
Definition split_label_anchor : node :=
  el "a" [("href", "/wiki/Page2")%string]
     [txt "Следующая "; el "b" [] [txt "страница"]].

Definition page_split_label : node := document [split_label_anchor].

End Fixtures.

(* ================================================================= *)
(** ** task2/solution.py: [_get_soup] and [parse] *)

Module Task2Run.

Import Soup Task2.

Definition info (msg : pystr) : log_record :=
  {| level := INFO; message := msg |}.

(** [self.pages_processed = n] *)
Definition with_pages_processed (self : ParseWikiAnimals) (n : Z)
  : ParseWikiAnimals :=
  {| base_url := base_url self;
     timeout := timeout self;
     pages_processed := n;
     letters_result := letters_result self;
     _only_russian := _only_russian self;
     _russian_letters := _russian_letters self |}.

(** The truth value of [url] in [while url]: neither [None] nor the
    empty string. *)
Definition truthy (url : option pystr) : bool :=
  match url with
  | Some (_ :: _) => true
  | _ => false
  end.

Section Network.

Variable lower : pystr -> pystr.
Variable urljoin : pystr -> pystr -> pystr.

(** The network, the errors of the HTTP client and its responses. *)
Variable W : Type.
Variable E : Type.
Variable Response : Type.

(** [self.client.get(url=url, timeout=timeout)],
    [response.raise_for_status()] ([Some e] when it raises),
    [response.text] and [BeautifulSoup(markup=text, features="lxml")]. *)
Variable client_get : pystr -> Z -> W -> (E + Response) * W.
Variable raise_for_status : Response -> option E.
Variable response_text : Response -> pystr.
Variable BeautifulSoup : pystr -> node.

(** [_get_soup(self, url)]: the soup, or the error of the request or of
    the status check. *)
Definition _get_soup (self : ParseWikiAnimals) (url : pystr) (w : W)
  : (E + node) * W :=
  match client_get url (timeout self) w with
  | (inl e, w') => (inl e, w')
  | (inr response, w') =>
      match raise_for_status response with
      | Some e => (inl e, w')
      | None => (inr (BeautifulSoup (response_text response)), w')
      end
  end.

(** How a run of the loop ends: the condition became false, an error
    left the loop, or the loop was still running when the fuel ran
    out. *)
Inductive ending :=
| Finished
| Raised (e : E)
| OutOfFuel.

(** [while url: ...] of [parse], at most [fuel] iterations.  The
    instance, the network and the log are returned as the loop left
    them. *)
Fixpoint parse_loop (fuel : nat) (url : option pystr)
         (self : ParseWikiAnimals) (w : W) (log : list log_record)
  : ending * ParseWikiAnimals * W * list log_record :=
  match url with
  | Some (c :: rest) =>
      match fuel with
      | O => (OutOfFuel, self, w, log)
      | S fuel' =>
          match _get_soup self (c :: rest) w with
          | (inl e, w') => (Raised e, self, w', log)
          | (inr soup, w') =>
              let parsed := _parse_page lower self soup in
              let self' :=
                with_pages_processed (fst parsed)
                                     (pages_processed (fst parsed) + 1) in
              let next := _next_page_url urljoin self' soup in
              parse_loop fuel' (fst next) self' w'
                         (log ++ snd parsed ++ snd next)
          end
      end
  | _ => (Finished, self, w, log)
  end.

(** [parse(self)] *)
Definition parse (fuel : nat) (self : ParseWikiAnimals) (w : W)
  : ending * ParseWikiAnimals * W * list log_record :=
  match parse_loop fuel (Some (base_url self)) self w [] with
  | (Finished, self', w', log) =>
      (Finished, self', w',
       log ++ [info (utf8 "Готово: " ++ of_Z (pages_processed self')
                     ++ utf8 " страниц, всего статей "
                     ++ of_Z (total_animals self'))])
  | stopped => stopped
  end.

End Network.

Arguments Finished {E}.
Arguments OutOfFuel {E}.

End Task2Run.

(* ================================================================= *)
(** ** task2/solution.py: [save_to_csv] *)

Module Task2Csv.

Import Task2 Task2Run.

(** [csv.writer(f)] writes in the dialect [excel]: fields separated by a
    comma, a field put in double quotes when it holds a comma, a double
    quote, a carriage return or a line feed, double quotes inside
    doubled, no escape character, records ended by [\r\n]. *)
Definition COMMA : char := 44%N.
Definition QUOTE : char := 34%N.
Definition CR : char := 13%N.
Definition LF : char := 10%N.

Definition special (c : char) : bool :=
  ((c =? COMMA) || (c =? QUOTE) || (c =? CR) || (c =? LF))%N.

Fixpoint double_quotes (s : pystr) : pystr :=
  match s with
  | [] => []
  | c :: rest =>
      if (c =? QUOTE)%N then QUOTE :: QUOTE :: double_quotes rest
      else c :: double_quotes rest
  end.

Definition write_field (s : pystr) : pystr :=
  if existsb special s then QUOTE :: double_quotes s ++ [QUOTE] else s.

(** [writer.writerow(fields)] for fields that are already strings: the
    text of the record.  A record that would be empty is written as an
    empty quoted field. *)
Definition writerow (fields : list pystr) : pystr :=
  match join [COMMA] (map write_field fields), fields with
  | [], _ :: _ => [QUOTE; QUOTE; CR; LF]
  | record, _ => record ++ [CR; LF]
  end.

(** The text that [save_to_csv] writes into the file: one record
    [[letter, count]] for each item of [letters_result]. *)
Definition csv_text (d : PyDict.dict Z) : pystr :=
  flat_map (fun item => writerow [fst item; of_Z (snd item)]) d.

(** [save_to_csv(self, path)]: the text written to the file opened at
    [path] for writing, and the record logged. *)
Definition save_to_csv (self : ParseWikiAnimals) (path : pystr)
  : pystr * list log_record :=
  (csv_text (letters_result self),
   [info (utf8 "Результат сохранён в " ++ path)]).

End Task2Csv.

(* ================================================================= *)
(** ** Notions for the order of the keys, the totals and the crawl *)

Module MoreNotions.

Import Soup Task2 Task2Run PyDict.

(** [list(d.keys())] *)
Definition keys_of (d : dict Z) : list pystr := map fst d.

(** [k in d] *)
Definition has_key (d : dict Z) (k : pystr) : bool :=
  existsb (fun k' => eqb k' k) (keys_of d).

(** The sum of the counts of a list of entries. *)
Definition sum_counts (es : list (pystr * Z)) : Z :=
  fold_right Z.add 0%Z (map snd es).

(** The labels of [labels] that are not in [seen], each once, in the
    order of their first occurrence. *)
Fixpoint first_seen (seen labels : list pystr) : list pystr :=
  match labels with
  | [] => []
  | l :: rest =>
      if existsb (fun k' => eqb k' l) seen
      then first_seen seen rest
      else l :: first_seen (seen ++ [l]) rest
  end.

(** Neither the first nor the last code point is whitespace. *)
Definition trimmed (s : pystr) : Prop :=
  (forall c rest, s = c :: rest -> isspace c = false)
  /\ (forall c front, s = front ++ [c] -> isspace c = false).

(** A minus sign or a decimal digit. *)
Definition numeral_char (b : N) : Prop := (b = 45 \/ 48 <= b <= 57)%N.

(** No record of level [INFO]. *)
Definition no_info (log : list log_record) : Prop :=
  Forall (fun r => level r <> INFO) log.

(** The instance after one iteration of the loop of [parse] on
    [soup]. *)
Definition after_page (lower : pystr -> pystr) (self : ParseWikiAnimals)
           (soup : node) : ParseWikiAnimals :=
  with_pages_processed (fst (_parse_page lower self soup))
                       (pages_processed (fst (_parse_page lower self soup)) + 1).

(** The instance after the loop went through [pages]. *)
Definition after_pages (lower : pystr -> pystr) (self : ParseWikiAnimals)
           (pages : list node) : ParseWikiAnimals :=
  with_pages_processed
    (with_letters_result self
       (fold_left Notions.add_entry
          (flat_map (Notions.page_entries lower (_only_russian self)
                                          (_russian_letters self)) pages)
          (letters_result self)))
    (pages_processed self + Z.of_nat (List.length pages)).

(** The summary that [parse] logs at the end. *)
Definition summary (self : ParseWikiAnimals) : log_record :=
  info (utf8 "Готово: " ++ of_Z (pages_processed self)
        ++ utf8 " страниц, всего статей " ++ of_Z (total_animals self)).

Section Crawl.

Variable urljoin : pystr -> pystr -> pystr.
Variable W E Response : Type.
Variable client_get : pystr -> Z -> W -> (E + Response) * W.
Variable raise_for_status : Response -> option E.
Variable response_text : Response -> pystr.
Variable BeautifulSoup : pystr -> node.

(** [crawl self url w pages w']: starting at [url] with the network in
    state [w], the requests succeed and lead through [pages], each one
    linking to the next and the last one to none, and leave the network
    in state [w']. *)
Inductive crawl (self : ParseWikiAnimals)
  : pystr -> W -> list node -> W -> Prop :=
| crawl_last url w soup w' :
    url <> [] ->
    _get_soup client_get raise_for_status response_text BeautifulSoup
              self url w = (inr soup, w') ->
    truthy (fst (_next_page_url urljoin self soup)) = false ->
    crawl self url w [soup] w'
| crawl_next url w soup w' next pages w'' :
    url <> [] ->
    _get_soup client_get raise_for_status response_text BeautifulSoup
              self url w = (inr soup, w') ->
    fst (_next_page_url urljoin self soup) = Some next ->
    crawl self next w' pages w'' ->
    crawl self url w (soup :: pages) w''.

End Crawl.

End MoreNotions.

(* ================================================================= *)
(** ** Further functions and sites for the examples *)

Module MoreFixtures.

Import Task1 Soup Task2 Task2Run TestParseWikiAnimals.

(** A site of two pages: the first, served at [BASE_URL], links to the
    second.  The world counts the requests, a response is its body, and
    no status is an error. *)
Definition page_a_linked : node :=
  document [mw_pages [group "А" [li "/wiki/Акула" "Акула";
                                 li "/wiki/Аист" "Аист"]];
            el "a" [("href", "/wiki/next")%string]
               [txt "Следующая страница"]].

Definition page_b_last : node :=
  document [mw_pages [group "А" [li "/wiki/Альпака" "Альпака"];
                      group "Б" [li "/wiki/Бобр" "Бобр"]]].

Definition site_get (url : pystr) (timeout : Z) (requests : nat)
  : (Z + pystr) * nat :=
  (inr (if eqb url BASE_URL then utf8 "first" else utf8 "second"),
   S requests).

Definition site_soup (body : pystr) : node :=
  if eqb body (utf8 "first") then page_a_linked else page_b_last.

Definition site_status (body : pystr) : option Z := None.

(** Keeps the link as it is; enough to walk the two pages. *)
Definition target_only (base href : pystr) : pystr := href.

(** A page whose only group has a heading that holds a no-break space,
    U+00A0, and nothing else. *)
Definition page_blank_label : node :=
  document
    [mw_pages
       [el "div" [("class", "mw-category-group")%string]
           [Tag (utf8 "h3") [] [NavigableString Text [160%N]];
            el "ul" [] [li "/wiki/Ёж" "Ёж"]]]].

(** An instance whose address was set to the empty string. *)
Definition no_address : ParseWikiAnimals :=
  {| base_url := [];
     timeout := TIMEOUT;
     pages_processed := 0;
     letters_result := [];
     _only_russian := false;
     _russian_letters := russian_letters |}.

(** A server that refuses every request. *)
Definition refusing_get (url : pystr) (timeout : Z) (requests : nat)
  : (Z + pystr) * nat :=
  (inl 503%Z, S requests).

End MoreFixtures.

(* ================================================================= *)
(** ** task1/solution.py: [strict] over annotations of any kind *)

(** An annotation need not be a class.  [__annotations__] holds whatever
    object the [def] names: a parameterized generic ([list[int]]), a
    string, a construct of [typing], a class with an [__instancecheck__]
    of its own.  [isinstance] goes through the tuple in order and stops
    at the first member that accepts the value; a member that is not a
    class answers as its kind does, and may raise. *)

Module Task1Any.

Import Task1.

Section Strict.

Variable W : Type.
Variable repr : value -> pystr.

Definition ret {A : Type} (a : A) : M W A := fun w => (Return a, w).

Definition bind {A B : Type} (m : M W A) (k : A -> M W B) : M W B :=
  fun w =>
    match m w with
    | (Return a, w') => k a w'
    | (Raise e, w') => (Raise e, w')
    end.

(** A builtin class, or any other object, given by what
    [isinstance(v, it)] does for each value. *)
Inductive annotation :=
| AClass (c : pytype)
| AOther (instancecheck : value -> M W bool).

(** [isinstance(a, types)] with a tuple as second argument. *)
Fixpoint isinstance (a : value) (types : list annotation) : M W bool :=
  match types with
  | [] => ret false
  | AClass c :: rest =>
      if issubclass (type_of a) c then ret true else isinstance a rest
  | AOther instancecheck :: rest =>
      bind (instancecheck a)
           (fun ok => if ok then ret true else isinstance a rest)
  end.

(** [[isinstance(v, types) for v in values]] *)
Fixpoint instance_checks (values : list value) (types : list annotation)
  : M W (list bool) :=
  match values with
  | [] => ret []
  | v :: rest =>
      bind (isinstance v types)
           (fun ok => bind (instance_checks rest types)
                           (fun oks => ret (ok :: oks)))
  end.

Record pyfunc := {
  __name__ : pystr;
  __annotations__ : list (pystr * annotation);
  __call__ : list value -> list (pystr * value) -> M W value
}.

Definition param_types_of (func : pyfunc) : list annotation :=
  map snd (filter (fun kv => negb (eqb (fst kv) (utf8 "return")))
                  (__annotations__ func)).

Definition error_message (func : pyfunc) (args : list value)
           (kwargs : list (pystr * value)) : pystr :=
  utf8 "Некорректные типы аргументов для функции "
  ++ __name__ func ++ utf8 ": " ++ str_tuple repr args ++ utf8 " "
  ++ str_dict repr kwargs.

Definition wrapper (func : pyfunc) (args : list value)
           (kwargs : list (pystr * value)) : M W value :=
  let param_types := param_types_of func in
  bind (instance_checks args param_types) (fun args_ok =>
  bind (instance_checks (map snd kwargs) param_types) (fun kwargs_ok =>
  if negb (all args_ok) || negb (all kwargs_ok)
  then raise (TypeError (error_message func args kwargs))
  else __call__ func args kwargs)).

Definition strict (func : pyfunc) : pyfunc :=
  {| __name__ := __name__ func;
     __annotations__ := __annotations__ func;
     __call__ := wrapper func |}.

(** A function whose annotations are classes, as [Task1] has it. *)
Definition of_classes (func : Task1.pyfunc W) : pyfunc :=
  {| __name__ := Task1.__name__ func;
     __annotations__ :=
       map (fun kv => (fst kv, AClass (snd kv))) (Task1.__annotations__ func);
     __call__ := Task1.__call__ func |}.

(** [sum_two], decorated. *)
Definition sum_two : pyfunc := strict (of_classes (sum_two_undecorated W)).

Definition is_class (a : annotation) : Prop :=
  match a with
  | AClass _ => True
  | AOther _ => False
  end.

(** What [isinstance] does with a parameterized generic such as
    [list[int]]. *)
Definition parameterized_generic : annotation :=
  AOther (fun _ =>
            raise (TypeError
                     (utf8 "isinstance() argument 2 cannot be a parameterized generic"))).

(** [def g(xs: list[int] = None, n: int = 0): return n], for calls with
    at most two positional arguments and no keyword but [n]. *)
Definition g : pyfunc :=
  {| __name__ := utf8 "g";
     __annotations__ :=
       [(utf8 "xs", parameterized_generic); (utf8 "n", AClass Tint)];
     __call__ := fun args kwargs =>
       ret (match PyDict.lookup kwargs (utf8 "n"), args with
            | Some n, _ => n
            | None, _ :: n :: _ => n
            | None, _ => VInt 0
            end) |}.

(** [def h(xs: list[int], x: object)] and [def h'(x: object, xs:
    list[int])], returning [None]. *)
Definition generic_then_object : pyfunc :=
  {| __name__ := utf8 "h";
     __annotations__ :=
       [(utf8 "xs", parameterized_generic); (utf8 "x", AClass Tobject)];
     __call__ := fun _ _ => ret VNone |}.

Definition object_then_generic : pyfunc :=
  {| __name__ := utf8 "h";
     __annotations__ :=
       [(utf8 "x", AClass Tobject); (utf8 "xs", parameterized_generic)];
     __call__ := fun _ _ => ret VNone |}.

End Strict.

Arguments AClass {W} c.
Arguments __name__ {W} p.
Arguments __annotations__ {W} p.
Arguments __call__ {W} p.
Arguments is_class {W} a.
Arguments parameterized_generic {W}.

End Task1Any.

(* ================================================================= *)
(** ** task2/solution.py: [_next_page_url] when [urljoin] can raise *)

Module JoinErrors.

Import Soup Task2.

Section Method.

(** The errors of [urllib.parse.urljoin] ([ValueError] for a target such
    as [//[]), and the function itself. *)
Variable E : Type.
Variable urljoin : pystr -> pystr -> E + pystr.

(** [_next_page_url(self, soup)]: the URL, [None], or the error of
    [urljoin], which leaves the method before anything is logged. *)
Definition _next_page_url (self : ParseWikiAnimals) (soup : node)
  : (E + option pystr) * list log_record :=
  let link := find soup (utf8 "a") [] (Some (utf8 "Следующая страница")) in
  match link with
  | Some (Tag _ attrs _) =>
      match attr attrs (utf8 "href") with
      | Some href =>
          match urljoin (base_url self) href with
          | inr next_url =>
              (inr (Some next_url),
               [debug (utf8 "Следующая страница: " ++ next_url)])
          | inl e => (inl e, [])
          end
      | None =>
          (inr None, [debug (utf8 "Ссылка «Следующая страница» не найдена")])
      end
  | _ => (inr None, [debug (utf8 "Ссылка «Следующая страница» не найдена")])
  end.

End Method.

End JoinErrors.

(* ================================================================= *)
(** * Properties *)

(** ** Strings *)

Module PyStrFacts.

Lemma eqb_eq (s t : pystr) : eqb s t = true <-> s = t.
Proof.
  revert t; induction s as [|a s IH]; intros [|b t]; simpl;
    try (split; [discriminate | congruence]); [tauto|].
  rewrite andb_true_iff, N.eqb_eq, IH.
  split; [intros [-> ->]; reflexivity | intros H; injection H; auto].
Qed.

Lemma eqb_refl (s : pystr) : eqb s s = true.
Proof. apply eqb_eq; reflexivity. Qed.

Lemma eqb_neq (s t : pystr) : eqb s t = false <-> s <> t.
Proof.
  destruct (eqb s t) eqn:E.
  - apply eqb_eq in E. split; [discriminate | congruence].
  - split; [intros _ H; apply eqb_eq in H; congruence | reflexivity].
Qed.

Lemma startswith_spec (s p : pystr) :
  startswith s p = true <-> exists post, s = p ++ post.
Proof.
  revert s; induction p as [|a p IH]; intros [|b s]; simpl.
  - split; [intros _; exists []; reflexivity | reflexivity].
  - split; [intros _; exists (b :: s); reflexivity | reflexivity].
  - split; [discriminate | intros [post H]; discriminate].
  - rewrite andb_true_iff, N.eqb_eq, IH. split.
    + intros [-> [post ->]]. exists post; reflexivity.
    + intros [post H]. injection H as -> ->. split; [reflexivity | eauto].
Qed.

Lemma contains_spec (s t : pystr) : contains s t = true <-> infix t s.
Proof.
  unfold infix. induction s as [|c s IH].
  - cbn [contains]. rewrite orb_false_r, startswith_spec. split.
    + intros [post H]. exists [], post; exact H.
    + intros [pre [post H]]. destruct pre; [eauto | discriminate].
  - cbn [contains]. rewrite orb_true_iff, startswith_spec, IH. split.
    + intros [[post H] | [pre [post H]]].
      * exists [], post; exact H.
      * exists (c :: pre), post; simpl; congruence.
    + intros [[|c' pre] [post H]].
      * left; exists post; exact H.
      * right. injection H as _ H. eauto.
Qed.

Lemma infix_refl (s : pystr) : infix s s.
Proof. exists [], []. simpl. now rewrite app_nil_r. Qed.

Lemma infix_app_l (t s u : pystr) : infix t s -> infix t (s ++ u).
Proof.
  intros [pre [post ->]]. exists pre, (post ++ u).
  now rewrite <- !app_assoc.
Qed.

Lemma infix_app_r (t s u : pystr) : infix t s -> infix t (u ++ s).
Proof.
  intros [pre [post ->]]. exists (u ++ pre), post.
  now rewrite <- !app_assoc.
Qed.

Lemma infix_trans (t s u : pystr) : infix t s -> infix s u -> infix t u.
Proof.
  intros [p1 [q1 ->]] [p2 [q2 ->]]. exists (p2 ++ p1), (q1 ++ q2).
  now rewrite <- !app_assoc.
Qed.

Lemma infix_join (sep x : pystr) (parts : list pystr) :
  In x parts -> infix x (join sep parts).
Proof.
  induction parts as [|p rest IH]; [intros []|].
  intros [-> | Hin].
  - destruct rest; simpl; [apply infix_refl | apply infix_app_l, infix_refl].
  - specialize (IH Hin). destruct rest as [|q rest]; [destruct Hin|].
    change (join sep (p :: q :: rest)) with (p ++ sep ++ join sep (q :: rest)).
    now apply infix_app_r, infix_app_r.
Qed.

Create HintDb pystr.
#[export] Hint Resolve infix_refl infix_app_l infix_app_r : pystr.

End PyStrFacts.

Import PyStrFacts.

(* ================================================================= *)
(** ** task1: what [strict] lets through and what it rejects *)

Module Task1Facts.

Import Task1.

Lemma pytype_eqb_refl (c : pytype) : pytype_eqb c c = true.
Proof. destruct c; reflexivity. Qed.

Lemma issubclass_refl (c : pytype) : issubclass c c = true.
Proof. destruct c; reflexivity. Qed.

(** A value is an instance of every tuple that lists its own class. *)
Lemma isinstance_of_member (v : value) (types : list pytype) :
  In (type_of v) types -> isinstance v types = true.
Proof.
  intros Hin. apply existsb_exists.
  exists (type_of v); split; [exact Hin | apply issubclass_refl].
Qed.

Lemma isinstance_nil (v : value) : isinstance v [] = false.
Proof. reflexivity. Qed.

Lemma all_map_true {A : Type} (f : A -> bool) (l : list A) :
  (forall a, In a l -> f a = true) -> all (map f l) = true.
Proof.
  intros H. unfold all. apply forallb_forall.
  intros b Hb. apply in_map_iff in Hb as [a [<- Ha]]. auto.
Qed.

Lemma all_map_false {A : Type} (f : A -> bool) (l : list A) (a : A) :
  In a l -> f a = false -> all (map f l) = false.
Proof.
  intros Hin Hf. unfold all.
  destruct (forallb (fun b => b) (map f l)) eqn:E; [|reflexivity].
  rewrite forallb_forall in E.
  rewrite <- Hf. symmetry. apply E, in_map. exact Hin.
Qed.

Section Wrapper.
Variable W : Type.
Variable repr : value -> pystr.

(** The two outcomes of the guard of [wrapper]. *)
Lemma wrapper_delegates (func : pyfunc W) args kwargs :
  (forall a, In a args -> isinstance a (param_types_of func) = true) ->
  (forall kv, In kv kwargs ->
              isinstance (snd kv) (param_types_of func) = true) ->
  wrapper repr func args kwargs = __call__ func args kwargs.
Proof.
  intros Ha Hk. unfold wrapper.
  rewrite (all_map_true _ _ Ha), (all_map_true _ _ Hk). reflexivity.
Qed.

Lemma wrapper_raises (func : pyfunc W) args kwargs (v : value) :
  In v args \/ (exists k, In (k, v) kwargs) ->
  isinstance v (param_types_of func) = false ->
  wrapper repr func args kwargs
  = raise (TypeError (error_message repr func args kwargs)).
Proof.
  intros Hin Hv. unfold wrapper.
  destruct Hin as [Hin | [k Hin]].
  - rewrite (all_map_false (fun a => isinstance a (param_types_of func))
                           args v Hin Hv).
    reflexivity.
  - rewrite (all_map_false
               (fun kv : pystr * value =>
                  isinstance (snd kv) (param_types_of func))
               kwargs (k, v) Hin Hv).
    rewrite orb_true_r. reflexivity.
Qed.

Lemma message_includes_name (func : pyfunc W) args kwargs :
  infix (__name__ func) (error_message repr func args kwargs).
Proof.
  unfold error_message. apply infix_app_r, infix_app_l, infix_refl.
Qed.

Lemma str_tuple_includes (args : list value) (a : value) :
  In a args -> infix (repr a) (str_tuple repr args).
Proof.
  intros Hin. unfold str_tuple.
  destruct args as [|x [|y rest]].
  - destruct Hin.
  - destruct Hin as [-> | []]. apply infix_app_r, infix_app_l, infix_refl.
  - apply infix_app_r, infix_app_l, infix_join, in_map, Hin.
Qed.

Lemma str_dict_includes (kwargs : list (pystr * value)) k v :
  In (k, v) kwargs -> infix (repr v) (str_dict repr kwargs).
Proof.
  intros Hin. unfold str_dict.
  apply infix_app_r, infix_app_l.
  apply infix_trans with (repr (VStr k) ++ utf8 ": " ++ repr v).
  - apply infix_app_r, infix_app_r, infix_refl.
  - apply infix_join.
    apply (in_map (fun kv : pystr * value =>
                     repr (VStr (fst kv)) ++ utf8 ": " ++ repr (snd kv))
                  kwargs (k, v) Hin).
Qed.

Lemma message_includes_args (func : pyfunc W) args kwargs :
  infix (str_tuple repr args) (error_message repr func args kwargs).
Proof.
  unfold error_message.
  apply infix_app_r, infix_app_r, infix_app_r, infix_app_l, infix_refl.
Qed.

Lemma message_includes_kwargs (func : pyfunc W) args kwargs :
  infix (str_dict repr kwargs) (error_message repr func args kwargs).
Proof.
  unfold error_message.
  do 5 apply infix_app_r. apply infix_refl.
Qed.

End Wrapper.

End Task1Facts.

Module StrictSpec.

Import Task1 Task1Facts Fixtures.

(** C2 as stated fails: [True] has class [bool], which is not among the
    declared types of [sum_two], and yet [sum_two(True, 2)] returns
    [3]. *)
Lemma strict_lets_bool_through_int :
  ~ In (type_of (VBool true)) (param_types_of (sum_two_undecorated unit))
  /\ __call__ (sum_two unit (fun _ => [])) [VBool true; VInt 2] [] tt
     = (Return (VInt 3), tt).
Proof.
  split; [|reflexivity].
  simpl. intros [H | [H | []]]; discriminate.
Qed.

(** C2, amended.  When some positional or keyword argument is not an
    instance of any declared parameter type (its class is neither
    declared nor a subclass of a declared one), the call raises the
    [TypeError] of [strict]; the message includes the name of the
    function and the [repr] of every argument, the world is left as it
    was and the outcome is the same whatever the body of the function
    is, so the function is not invoked.  [sum_two(1, "2")] and
    [sum_two(1.5, 2)] raise. *)
Theorem strict_raises_on_foreign_instance :
  forall (W : Type) (repr : value -> pystr),
    (forall (func : pyfunc W) args kwargs v,
        In v args \/ (exists k, In (k, v) kwargs) ->
        isinstance v (param_types_of func) = false ->
        forall w,
          let msg := error_message repr func args kwargs in
          __call__ (strict repr func) args kwargs w
          = (Raise (TypeError msg), w)
          /\ infix (__name__ func) msg
          /\ (forall a, In a args -> infix (repr a) msg)
          /\ (forall k a, In (k, a) kwargs -> infix (repr a) msg)
          /\ (forall body,
                 __call__ (strict repr
                             {| __name__ := __name__ func;
                                __annotations__ := __annotations__ func;
                                __call__ := body |}) args kwargs w
                 = (Raise (TypeError msg), w)))
    /\ (forall w, exists msg,
           __call__ (sum_two W repr) [VInt 1; VStr (utf8 "2")] [] w
           = (Raise (TypeError msg), w))
    /\ (forall w, exists msg,
           __call__ (sum_two W repr) [VFloat 1.5; VInt 2] [] w
           = (Raise (TypeError msg), w)).
Proof.
  intros W repr. split; [|split].
  - intros func args kwargs v Hin Hv w msg. subst msg.
    repeat split.
    + simpl. rewrite (wrapper_raises repr func args kwargs v Hin Hv).
      reflexivity.
    + apply message_includes_name.
    + intros a Ha. eapply infix_trans;
        [apply str_tuple_includes, Ha | apply message_includes_args].
    + intros k a Ha. eapply infix_trans;
        [eapply str_dict_includes, Ha | apply message_includes_kwargs].
    + intros body.
      set (func' := {| __name__ := __name__ func;
                       __annotations__ := __annotations__ func;
                       __call__ := body |}).
      assert (Hv' : isinstance v (param_types_of func') = false) by exact Hv.
      change (wrapper repr func' args kwargs w
              = (Raise (TypeError (error_message repr func args kwargs)), w)).
      rewrite (wrapper_raises repr func' args kwargs v Hin Hv').
      unfold raise, error_message. subst func'. cbn [__name__].
      reflexivity.
  - intros w. eexists. reflexivity.
  - intros w. eexists. reflexivity.
Qed.

Lemma strict_raises_on_foreign_instance_witness :
  __call__ (strict (fun _ => []) counting_int_str)
           [VInt 1] [(utf8 "b", VFloat 1.5)] 0%nat
  = (Raise (TypeError (error_message (fun _ => []) counting_int_str
                                     [VInt 1] [(utf8 "b", VFloat 1.5)])),
     0%nat).
Proof.
  refine (proj1 (proj1 (strict_raises_on_foreign_instance nat (fun _ => []))
                       counting_int_str [VInt 1] [(utf8 "b", VFloat 1.5)]
                       (VFloat 1.5) _ _ 0%nat)).
  - right. exists (utf8 "b"). simpl. auto.
  - reflexivity.
Defined.

(** C3.  The check is membership in the set of declared types, not a
    pairing by position: for a function with parameters [(a: int, b:
    str)], the call [f(x, y)] with two integers passes, though [y] is
    not an instance of the type declared for [b], and the function is
    invoked with these arguments. *)
Theorem strict_checks_membership_not_position :
  forall (W : Type) (repr : value -> pystr) (func : pyfunc W),
    param_types_of func = [Tint; Tstr] ->
    forall (x y : Z) w,
      isinstance (VInt y) [Tstr] = false
      /\ __call__ (strict repr func) [VInt x; VInt y] [] w
         = __call__ func [VInt x; VInt y] [] w.
Proof.
  intros W repr func Hty x y w. split; [reflexivity|].
  simpl. rewrite wrapper_delegates; [reflexivity | |].
  - intros a [<- | [<- | []]]; rewrite Hty; reflexivity.
  - intros kv [].
Qed.

Lemma strict_checks_membership_not_position_witness :
  __call__ (strict (fun _ => []) counting_int_str) [VInt 1; VInt 2] [] 0%nat
  = (Return VNone, 1%nat).
Proof.
  exact (proj2 (strict_checks_membership_not_position
                  (fun _ => []) counting_int_str eq_refl 1 2 0%nat)).
Defined.

(** C9.  When no parameter is annotated, every call with at least one
    positional or keyword argument raises the [TypeError] of [strict],
    and the call without arguments is passed on to the function. *)
Theorem strict_without_annotations :
  forall (W : Type) (repr : value -> pystr) (func : pyfunc W),
    param_types_of func = [] ->
    (forall args kwargs,
        args <> [] \/ kwargs <> [] ->
        forall w,
          __call__ (strict repr func) args kwargs w
          = (Raise (TypeError (error_message repr func args kwargs)), w))
    /\ (forall w,
           __call__ (strict repr func) [] [] w = __call__ func [] [] w).
Proof.
  intros W repr func Hty. split.
  - intros args kwargs Hne w. simpl.
    assert (Hv : exists v, (In v args \/ exists k, In (k, v) kwargs)).
    { destruct args as [|a args].
      - destruct kwargs as [|[k v] kwargs].
        + destruct Hne as [H | H]; contradiction H; reflexivity.
        + exists v. right. exists k. left. reflexivity.
      - exists a. left. left. reflexivity. }
    destruct Hv as [v Hin].
    rewrite (wrapper_raises repr func args kwargs v Hin);
      [reflexivity | rewrite Hty; apply isinstance_nil].
  - intros w. reflexivity.
Qed.

Lemma strict_without_annotations_witness :
  __call__ (strict (fun _ => []) counting_unannotated) [VInt 1] [] 0%nat
  = (Raise (TypeError (error_message (fun _ => []) counting_unannotated
                                     [VInt 1] [])), 0%nat)
  /\ __call__ (strict (fun _ => []) counting_unannotated) [] [] 0%nat
     = (Return VNone, 1%nat).
Proof.
  destruct (strict_without_annotations (fun _ => []) counting_unannotated
                                       eq_refl) as [Hraise Hpass].
  split.
  - apply Hraise. left. discriminate.
  - apply Hpass.
Defined.

End StrictSpec.

(* ================================================================= *)
(** ** Dictionaries *)

Module PyDictFacts.

Import PyDict.

Section Facts.
Variable V : Type.
Implicit Types (d : dict V) (k : pystr) (v : V).

Lemma lookup_set_same d k v : lookup (set d k v) k = Some v.
Proof.
  induction d as [|[k' v'] d IH]; cbn [set lookup].
  - now rewrite eqb_refl.
  - destruct (eqb k' k) eqn:E; cbn [lookup]; rewrite E; auto.
Qed.

Lemma lookup_set_other d k k' v :
  k' <> k -> lookup (set d k v) k' = lookup d k'.
Proof.
  intros Hne. induction d as [|[k0 v0] d IH]; cbn [set lookup].
  - apply not_eq_sym, eqb_neq in Hne. now rewrite Hne.
  - destruct (eqb k0 k) eqn:E; cbn [lookup].
    + apply eqb_eq in E; subst k0.
      apply not_eq_sym, eqb_neq in Hne. now rewrite Hne.
    + now rewrite IH.
Qed.

Lemma get_set_same d k v default : get (set d k v) k default = v.
Proof. unfold get. now rewrite lookup_set_same. Qed.

Lemma get_set_other d k k' v default :
  k' <> k -> get (set d k v) k' default = get d k' default.
Proof. intros H. unfold get. now rewrite lookup_set_other. Qed.

End Facts.

(** *** Accumulating counts *)

Lemma total_unmentioned (es : list (pystr * Z)) k :
  mentions k es = false -> total k es = 0%Z.
Proof.
  unfold mentions. induction es as [|[k' c] es IH]; [reflexivity|].
  cbn [existsb fst total]. intros H. apply orb_false_iff in H as [E H].
  rewrite E, (IH H). reflexivity.
Qed.

(** What a key holds after a run of merges. *)
Lemma lookup_fold_add_entry (es : list (pystr * Z)) (d : dict Z) k :
  lookup (fold_left add_entry es d) k
  = if mentions k es then Some (get d k 0 + total k es)%Z else lookup d k.
Proof.
  revert d; induction es as [|[k' c] es IH]; intros d; [reflexivity|].
  cbn [fold_left]. rewrite IH. unfold add_entry, mentions.
  cbn [existsb fst snd total].
  destruct (eqb k' k) eqn:E.
  - apply eqb_eq in E; subst k'. cbn [orb].
    rewrite get_set_same, lookup_set_same.
    destruct (existsb _ es) eqn:Hm; f_equal; [lia|].
    rewrite (total_unmentioned es k Hm). lia.
  - assert (Hne : k <> k') by (apply not_eq_sym, eqb_neq, E).
    cbn [orb]. rewrite get_set_other, lookup_set_other by exact Hne.
    destruct (existsb _ es); [f_equal; lia | reflexivity].
Qed.

(** Merging entries into [d] adds, key by key, what merging them into
    the empty dictionary gives. *)
Lemma fold_add_entry_merge (es : list (pystr * Z)) (d : dict Z) k :
  lookup (fold_left add_entry es d) k
  = merge_counts (lookup d k) (lookup (fold_left add_entry es []) k).
Proof.
  rewrite !lookup_fold_add_entry. unfold get. cbn [lookup].
  destruct (mentions k es), (lookup d k); cbn [merge_counts];
    try reflexivity; f_equal; lia.
Qed.

End PyDictFacts.

(* ================================================================= *)
(** ** task2: how a page is folded into the mapping *)

Module Task2Facts.

Import Soup Task2 PyDict PyDictFacts.

Lemma hd_error_filter_first {A : Type} (p : A -> bool) before x after :
  (forall n, In n before -> p n = false) ->
  p x = true ->
  hd_error (filter p (before ++ x :: after)) = Some x.
Proof.
  intros Hb Hx. induction before as [|b before IH]; cbn [app filter].
  - now rewrite Hx.
  - rewrite (Hb b (or_introl eq_refl)). apply IH.
    intros n Hn. apply Hb. now right.
Qed.

Lemma hd_error_filter_none {A : Type} (p : A -> bool) l :
  (forall n, In n l -> p n = false) -> hd_error (filter p l) = None.
Proof.
  intros H. induction l as [|a l IH]; [reflexivity|]. cbn [filter].
  rewrite (H a (or_introl eq_refl)). apply IH.
  intros n Hn. apply H. now right.
Qed.

Lemma with_letters_result_same (self : ParseWikiAnimals) :
  with_letters_result self (letters_result self) = self.
Proof. destruct self; reflexivity. Qed.

Section Methods.
Variable lower : pystr -> pystr.

Lemma parse_group_entry (self : ParseWikiAnimals) (group : node) :
  parse_group lower self group
  = match group_entry lower (_only_russian self) (_russian_letters self)
                      group
    with
    | Some e =>
        with_letters_result self (add_entry (letters_result self) e)
    | None => self
    end.
Proof.
  unfold parse_group, group_entry.
  destruct (find group (utf8 "h3") [] None); [|reflexivity].
  destruct (find group (utf8 "ul") [] None); [|reflexivity].
  cbv zeta.
  destruct (_only_russian self && negb (contains _ _)); reflexivity.
Qed.

(** The loop of [_parse_page] touches [letters_result] only, and
    merges the entries of the groups from left to right. *)
Lemma fold_parse_group (groups : list node) (self : ParseWikiAnimals) :
  fold_left (parse_group lower) groups self
  = with_letters_result self
      (fold_left add_entry
         (entries lower (_only_russian self) (_russian_letters self) groups)
         (letters_result self)).
Proof.
  revert self; induction groups as [|g groups IH]; intros self.
  - cbn [fold_left entries flat_map]. symmetry.
    apply with_letters_result_same.
  - cbn [fold_left]. rewrite IH, parse_group_entry.
    unfold entries; cbn [flat_map].
    destruct (group_entry lower _ _ g) as [e|]; [|reflexivity].
    cbn [app fold_left]. reflexivity.
Qed.

Lemma parse_page_state (self : ParseWikiAnimals) (soup : node) :
  fst (_parse_page lower self soup)
  = with_letters_result self
      (fold_left add_entry
         (page_entries lower (_only_russian self) (_russian_letters self) soup)
         (letters_result self)).
Proof.
  unfold _parse_page, page_entries, page_groups.
  destruct (find soup _ _ _) as [category_div|];
    [|symmetry; apply with_letters_result_same].
  destruct (find category_div _ _ _) as [content_div|];
    [|symmetry; apply with_letters_result_same].
  cbv zeta. cbn [fst]. apply fold_parse_group.
Qed.

Lemma parse_page_letters (self : ParseWikiAnimals) (soup : node) :
  letters_result (fst (_parse_page lower self soup))
  = fold_left add_entry
      (page_entries lower (_only_russian self) (_russian_letters self) soup)
      (letters_result self).
Proof. rewrite parse_page_state. reflexivity. Qed.

Lemma parse_page_only_russian (self : ParseWikiAnimals) (soup : node) :
  _only_russian (fst (_parse_page lower self soup)) = _only_russian self.
Proof. rewrite parse_page_state. reflexivity. Qed.

Lemma parse_page_russian_letters (self : ParseWikiAnimals) (soup : node) :
  _russian_letters (fst (_parse_page lower self soup))
  = _russian_letters self.
Proof. rewrite parse_page_state. reflexivity. Qed.

(** Parsing into a mapping adds, key by key, what parsing the same
    page into an empty mapping gives. *)
Lemma parse_page_additive (self fresh : ParseWikiAnimals) (soup : node) k :
  _only_russian fresh = _only_russian self ->
  _russian_letters fresh = _russian_letters self ->
  letters_result fresh = [] ->
  lookup (letters_result (fst (_parse_page lower self soup))) k
  = merge_counts
      (lookup (letters_result self) k)
      (lookup (letters_result (fst (_parse_page lower fresh soup))) k).
Proof.
  intros Hflag Halpha Hempty.
  rewrite !parse_page_letters, Hflag, Halpha, Hempty.
  apply fold_add_entry_merge.
Qed.

End Methods.

(** The first case of [test_parse_page]. *)
Example test_parse_page_1 :
  letters_result
    (fst (_parse_page lower_basic (__init__ false)
                      TestParseWikiAnimals.HTML_PARSE_1))
  = [(utf8 "А", 2%Z); (utf8 "Б", 1%Z)].
Proof. vm_compute. reflexivity. Qed.

End Task2Facts.

Module ScraperSpec.

Import Soup Task2 PyDict PyDictFacts Task2Facts TestParseWikiAnimals Fixtures.

(** C4.  Accumulation is an additive merge.  A group that reaches the
    merge statement sets the value of its letter to the previous value
    (0 if absent) plus its count and leaves the other keys alone; after
    a whole page every key holds its previous value plus the counts of
    the page's entries for it; and when page A alone yields [{"А": 2}]
    and page B alone yields [{"А": 1, "Б": 1}], parsing A and then B
    into one instance yields [{"А": 3, "Б": 1}]. *)
Theorem parse_page_merges_additively :
  forall (lower : pystr -> pystr),
    (forall self group letter_tag ul_tag,
        find group (utf8 "h3") [] None = Some letter_tag ->
        find group (utf8 "ul") [] None = Some ul_tag ->
        _only_russian self
        && negb (contains (_russian_letters self)
                          (lower (strip (text letter_tag)))) = false ->
        let letter := strip (text letter_tag) in
        let count :=
          Z.of_nat (List.length (find_all ul_tag (utf8 "li") [] None)) in
        let after := letters_result (parse_group lower self group) in
        lookup after letter
        = Some (get (letters_result self) letter 0 + count)%Z
        /\ forall k, k <> letter ->
                     lookup after k = lookup (letters_result self) k)
    /\ (forall self soup k,
           let es := page_entries lower (_only_russian self)
                                  (_russian_letters self) soup in
           lookup (letters_result (fst (_parse_page lower self soup))) k
           = if mentions k es
             then Some (get (letters_result self) k 0 + total k es)%Z
             else lookup (letters_result self) k)
    /\ (forall self a b,
           letters_result self = [] ->
           equal (letters_result (fst (_parse_page lower self a)))
                 [(utf8 "А", 2%Z)] ->
           equal (letters_result (fst (_parse_page lower self b)))
                 [(utf8 "А", 1%Z); (utf8 "Б", 1%Z)] ->
           equal (letters_result
                    (fst (_parse_page lower
                                      (fst (_parse_page lower self a)) b)))
                 [(utf8 "А", 3%Z); (utf8 "Б", 1%Z)]).
Proof.
  intros lower. split; [|split].
  - intros self g letter_tag ul_tag Hh Hu Hpass letter count after.
    subst after. unfold parse_group. rewrite Hh, Hu. cbv zeta.
    rewrite Hpass. fold letter. fold count.
    cbn [letters_result with_letters_result]. split.
    + apply lookup_set_same.
    + intros k Hk. now apply lookup_set_other.
  - intros self soup k es. subst es.
    rewrite parse_page_letters. apply lookup_fold_add_entry.
  - intros self a b Hempty Ha Hb k.
    rewrite (parse_page_additive lower (fst (_parse_page lower self a))
                                 self b k).
    + rewrite (Ha k), (Hb k). cbn [lookup merge_counts].
      destruct (eqb (utf8 "А") k); [reflexivity|].
      destruct (eqb (utf8 "Б") k); reflexivity.
    + symmetry. apply parse_page_only_russian.
    + symmetry. apply parse_page_russian_letters.
    + exact Hempty.
Qed.

Lemma parse_page_merges_additively_witness :
  equal (letters_result
           (fst (_parse_page lower_basic
                   (fst (_parse_page lower_basic (__init__ false) page_a))
                   page_b)))
        [(utf8 "А", 3%Z); (utf8 "Б", 1%Z)].
Proof.
  apply (proj2 (proj2 (parse_page_merges_additively lower_basic))).
  - reflexivity.
  - intros k. vm_compute. reflexivity.
  - intros k. vm_compute. reflexivity.
Defined.

(** C8.  Extraction depends on the page and the configuration only:
    two parses of one page, each into an empty mapping, leave the same
    mapping, whatever else the two instances hold. *)
Theorem parse_page_repeatable :
  forall (lower : pystr -> pystr) (first second : ParseWikiAnimals) soup,
    _only_russian first = _only_russian second ->
    _russian_letters first = _russian_letters second ->
    letters_result first = [] ->
    letters_result second = [] ->
    letters_result (fst (_parse_page lower first soup))
    = letters_result (fst (_parse_page lower second soup)).
Proof.
  intros lower first second soup Hflag Halpha H1 H2.
  rewrite !parse_page_letters, Hflag, Halpha, H1, H2. reflexivity.
Qed.

Lemma parse_page_repeatable_witness :
  letters_result (fst (_parse_page lower_basic (__init__ true)
                                   HTML_PARSE_ONLY_RU))
  = letters_result (fst (_parse_page lower_basic emptied
                                     HTML_PARSE_ONLY_RU)).
Proof.
  refine (parse_page_repeatable lower_basic (__init__ true) emptied
            HTML_PARSE_ONLY_RU _ _ _ _); vm_compute; reflexivity.
Defined.

(** C6 as stated fails for a missing list: the second group of
    [page_with_gap] has no [ul], and yet no warning is logged and the
    mapping receives the two other groups. *)
Lemma group_without_list_is_not_reported :
  In heading_only (descendants page_with_gap)
  /\ find heading_only (utf8 "ul") [] None = None
  /\ _parse_page lower_basic (__init__ false) page_with_gap
     = (with_letters_result (__init__ false)
          [(utf8 "А", 1%Z); (utf8 "В", 1%Z)], []).
Proof.
  split; [|split]; [|reflexivity|vm_compute; reflexivity].
  vm_compute. do 11 right. left. reflexivity.
Qed.

(** C6, amended.  When the [mw-pages] container, or the
    [mw-content-ltr] block inside it, is not found, the parse step logs
    one warning and returns with the instance as it was (the function
    has no raising path); a group without a list leaves the instance as
    it was as well. *)
Theorem missing_container_leaves_state :
  forall (lower : pystr -> pystr),
    (forall self soup,
        find soup (utf8 "div") [(utf8 "id", utf8 "mw-pages")] None = None
        \/ (exists category_div,
               find soup (utf8 "div") [(utf8 "id", utf8 "mw-pages")] None
               = Some category_div
               /\ find category_div (utf8 "div")
                       [(utf8 "class", utf8 "mw-content-ltr")] None = None) ->
        exists msg, _parse_page lower self soup = (self, [warning msg]))
    /\ (forall self group,
           find group (utf8 "ul") [] None = None ->
           parse_group lower self group = self).
Proof.
  intros lower. split.
  - intros self soup [H | [category_div [H1 H2]]]; unfold _parse_page.
    + rewrite H. eexists; reflexivity.
    + rewrite H1, H2. eexists; reflexivity.
  - intros self g H. unfold parse_group. rewrite H.
    destruct (find g (utf8 "h3") [] None); reflexivity.
Qed.

Lemma missing_container_leaves_state_witness :
  exists msg,
    _parse_page lower_basic (__init__ false) HTML_NO_NEXT
    = (__init__ false, [warning msg]).
Proof.
  apply (proj1 (missing_container_leaves_state lower_basic)).
  left. vm_compute. reflexivity.
Defined.

(** *** Russian-only filtering *)

Lemma infix_singleton (c : char) (s : pystr) : infix [c] s <-> In c s.
Proof.
  split.
  - intros [pre [post ->]]. apply in_or_app. right. left. reflexivity.
  - intros H. apply in_split in H as [pre [post ->]]. exists pre, post.
    reflexivity.
Qed.

(** *** The link to the next page *)

Lemma matches_string_spec (name s : pystr) (n : node) :
  s <> [] ->
  matches name [] (Some s) n = true
  <-> exists attrs contents,
      n = Tag name attrs contents /\ string_of n = Some s.
Proof.
  intros Hs. destruct s as [|c s]; [congruence|].
  destruct n as [nm attrs contents | kind t].
  - unfold matches. cbn [forallb]. rewrite andb_true_r, andb_true_iff.
    rewrite eqb_eq. split.
    + intros [-> H]. exists attrs, contents. split; [reflexivity|].
      destruct (string_of (Tag name attrs contents)) as [s'|];
        [|discriminate].
      apply eqb_eq in H. now subst.
    + intros [attrs' [contents' [Heq Hstr]]].
      injection Heq as -> _ _. split; [reflexivity|].
      rewrite Hstr. apply eqb_refl.
  - split; [discriminate|].
    intros [attrs [contents [Heq _]]]. discriminate.
Qed.

Lemma next_label_nonempty : NEXT_LABEL <> [].
Proof. vm_compute. discriminate. Qed.

Lemma matches_next_anchor (n : node) :
  matches (utf8 "a") [] (Some NEXT_LABEL) n = true <-> is_next_anchor n.
Proof. apply matches_string_spec, next_label_nonempty. Qed.

Lemma not_next_anchor (n : node) :
  ~ is_next_anchor n -> matches (utf8 "a") [] (Some NEXT_LABEL) n = false.
Proof.
  intros H. destruct (matches _ _ _ n) eqn:E; [|reflexivity].
  apply matches_next_anchor in E. contradiction.
Qed.

(** C7 as stated fails.  The only anchor of [page_split_label] has the
    label as its text and a link target, and yet the step returns
    [None], because the [.string] of a tag with two children is [None].
    [page_two_anchors] contains an anchor with the label and a link
    target, and yet the step returns [None], because the first anchor
    with that label has no [href]. *)
Lemma anchor_with_label_and_href_is_missed :
  (In split_label_anchor (descendants page_split_label)
   /\ text split_label_anchor = NEXT_LABEL
   /\ href_of split_label_anchor = Some (utf8 "/wiki/Page2")
   /\ forall urljoin,
       fst (_next_page_url urljoin (__init__ false) page_split_label) = None)
  /\ (In linked_anchor (descendants page_two_anchors)
      /\ text linked_anchor = NEXT_LABEL
      /\ href_of linked_anchor = Some (utf8 "/wiki/Page2")
      /\ forall urljoin,
          fst (_next_page_url urljoin (__init__ false) page_two_anchors)
          = None).
Proof.
  split; (split; [|split; [|split]]).
  - vm_compute. do 2 right. left. reflexivity.
  - vm_compute. reflexivity.
  - vm_compute. reflexivity.
  - intros urljoin. vm_compute. reflexivity.
  - vm_compute. do 4 right. left. reflexivity.
  - vm_compute. reflexivity.
  - vm_compute. reflexivity.
  - intros urljoin. vm_compute. reflexivity.
Qed.

(** C7, amended.  The step looks at the first [a] tag, in document
    order, whose [.string] is the label: when that tag has an [href] it
    returns [urljoin(base_url, href)], when it has none it returns
    [None]; when no [a] tag has the label as its [.string] it returns
    [None].  [HTML_NEXT_LINK] gives the joined URL and [HTML_NO_NEXT]
    gives [None]. *)
Theorem next_page_url_follows_first_anchor :
  forall (urljoin : pystr -> pystr -> pystr),
    (forall self soup before link after,
        descendants soup = before ++ link :: after ->
        (forall n, In n before -> ~ is_next_anchor n) ->
        is_next_anchor link ->
        fst (_next_page_url urljoin self soup)
        = option_map (urljoin (base_url self)) (href_of link))
    /\ (forall self soup,
           (forall n, In n (descendants soup) -> ~ is_next_anchor n) ->
           fst (_next_page_url urljoin self soup) = None)
    /\ fst (_next_page_url urljoin (__init__ false) HTML_NEXT_LINK)
       = Some (urljoin BASE_URL
                 (utf8 "/wiki/Категория:Животные_по_алфавиту?pagefrom=Page2"))
    /\ fst (_next_page_url urljoin (__init__ false) HTML_NO_NEXT) = None.
Proof.
  intros urljoin. split; [|split; [|split]].
  - intros self soup before link after Hdesc Hbefore Hlink.
    unfold _next_page_url, find, find_all. rewrite Hdesc.
    rewrite hd_error_filter_first.
    + destruct Hlink as [attrs [contents [-> _]]]. cbn [href_of].
      destruct (attr attrs (utf8 "href")); reflexivity.
    + intros n Hn. apply not_next_anchor, Hbefore, Hn.
    + apply matches_next_anchor, Hlink.
  - intros self soup Hnone.
    unfold _next_page_url, find, find_all.
    rewrite hd_error_filter_none; [reflexivity|].
    intros n Hn. apply not_next_anchor, Hnone, Hn.
  - vm_compute. reflexivity.
  - vm_compute. reflexivity.
Qed.

Lemma next_page_url_follows_first_anchor_witness :
  fst (_next_page_url (fun base href => href) (__init__ false)
                      page_two_anchors)
  = option_map (fun href : pystr => href)
               (href_of (el "a" [] [txt "Следующая страница"])).
Proof.
  refine (proj1 (next_page_url_follows_first_anchor (fun base href => href))
                (__init__ false) page_two_anchors
                [el "html" []
                    [el "body" []
                        [el "a" [] [txt "Следующая страница"];
                         linked_anchor]];
                 el "body" []
                    [el "a" [] [txt "Следующая страница"]; linked_anchor]]
                (el "a" [] [txt "Следующая страница"])
                [txt "Следующая страница"; linked_anchor;
                 txt "Следующая страница"] _ _ _).
  - vm_compute. reflexivity.
  - intros n [<- | [<- | []]] [attrs [contents [H _]]];
      vm_compute in H; discriminate H.
  - eexists _, _. split; vm_compute; reflexivity.
Defined.

End ScraperSpec.

(* ================================================================= *)
(** ** task1: more about [strict] and [sum_two] *)

Module StrictMore.

Import Task1 Task1Facts MoreFixtures.

Lemma issubclass_object (c : pytype) : issubclass c Tobject = true.
Proof. destruct c; reflexivity. Qed.

Lemma param_types_of_strict (W : Type) (repr : value -> pystr)
      (func : pyfunc W) :
  param_types_of (strict repr func) = param_types_of func.
Proof. reflexivity. Qed.

(** X1.  Decorating twice is decorating once: the second guard checks the same
    annotations, which [wraps] copied, and reports under the same name. *)
Theorem strict_twice :
  forall (W : Type) (repr : value -> pystr) (func : pyfunc W) args kwargs w,
    __call__ (strict repr (strict repr func)) args kwargs w
    = __call__ (strict repr func) args kwargs w.
Proof.
  intros W repr func args kwargs w.
  change (wrapper repr (strict repr func) args kwargs w
          = wrapper repr func args kwargs w).
  unfold wrapper at 1. cbv zeta.
  rewrite param_types_of_strict.
  destruct (negb (all (map (fun a => isinstance a (param_types_of func)) args))
            || negb (all (map (fun kv : pystr * value =>
                                 isinstance (snd kv) (param_types_of func))
                              kwargs))) eqn:G.
  - unfold wrapper. cbv zeta. rewrite G.
    unfold error_message. cbn [__name__ strict]. reflexivity.
  - reflexivity.
Qed.

(** X3.  [sum_two(a, b)] for two values whose class is exactly [int],
    [bool], [float], [str] or [NoneType] (instances of further subclasses
    of [int], which may bring an [__add__] of their own, are not among
    the values here): the integer sum when both are [int] or [bool], the
    [TypeError] of [strict] for every other pair. *)
Theorem sum_two_positional :
  forall (W : Type) (repr : value -> pystr) (a b : value) (w : W),
    __call__ (sum_two W repr) [a; b] [] w
    = match as_int a, as_int b with
      | Some x, Some y => (Return (VInt (x + y)), w)
      | _, _ =>
          (Raise (TypeError (error_message repr (sum_two_undecorated W)
                                           [a; b] [])), w)
      end.
Proof.
  intros W repr a b w. destruct a, b; reflexivity.
Qed.

(** X4.  For [int] and [bool] arguments the four ways of passing [a] and [b]
    give the same sum. *)
Theorem sum_two_keywords :
  forall (W : Type) (repr : value -> pystr) (a b : value) (x y : Z) (w : W),
    as_int a = Some x ->
    as_int b = Some y ->
    let a_ := utf8 "a" in
    let b_ := utf8 "b" in
    __call__ (sum_two W repr) [a; b] [] w = (Return (VInt (x + y)), w)
    /\ __call__ (sum_two W repr) [a] [(b_, b)] w = (Return (VInt (x + y)), w)
    /\ __call__ (sum_two W repr) [] [(a_, a); (b_, b)] w
       = (Return (VInt (x + y)), w)
    /\ __call__ (sum_two W repr) [] [(b_, b); (a_, a)] w
       = (Return (VInt (x + y)), w).
Proof.
  intros W repr a b x y w Ha Hb a_ b_. subst a_ b_.
  destruct a; try discriminate Ha; destruct b; try discriminate Hb;
    injection Ha as <-; injection Hb as <-; repeat split; reflexivity.
Qed.

Lemma sum_two_keywords_witness :
  __call__ (sum_two nat (fun _ => [])) []
           [(utf8 "b", VBool true); (utf8 "a", VInt 41)] 0%nat
  = (Return (VInt (41 + 1)), 0%nat).
Proof.
  exact (proj2 (proj2 (proj2 (@sum_two_keywords nat (fun _ => [])
                                (VInt 41) (VBool true) 41 1 0%nat
                                eq_refl eq_refl)))).
Defined.

End StrictMore.

(* ================================================================= *)
(** ** task2: totals, order of the keys and what a page cannot undo *)

Module ScraperMore.

Import Soup Task2 PyDict PyDictFacts Task2Facts MoreNotions
       TestParseWikiAnimals Fixtures.

Lemma fold_left_add_sum (l : list Z) (a : Z) :
  fold_left Z.add l a = (a + fold_right Z.add 0 l)%Z.
Proof.
  revert a; induction l as [|x l IH]; intros a; cbn [fold_left fold_right].
  - lia.
  - rewrite IH. lia.
Qed.

Lemma total_animals_sum (self : ParseWikiAnimals) :
  total_animals self = sum_counts (letters_result self).
Proof.
  unfold total_animals, sum_counts, values. rewrite fold_left_add_sum. lia.
Qed.

Lemma sum_counts_set (d : dict Z) k v :
  sum_counts (set d k v) = (sum_counts d - get d k 0 + v)%Z.
Proof.
  unfold sum_counts, get.
  induction d as [|[k' v'] d IH]; cbn [set lookup map snd fold_right].
  - lia.
  - destruct (eqb k' k); cbn [map snd fold_right]; [lia|].
    rewrite IH. lia.
Qed.

Lemma sum_counts_fold (es : list (pystr * Z)) (d : dict Z) :
  sum_counts (fold_left add_entry es d) = (sum_counts d + sum_counts es)%Z.
Proof.
  revert d; induction es as [|e es IH]; intros d; cbn [fold_left].
  - change (sum_counts []) with 0%Z. lia.
  - rewrite IH. unfold add_entry. rewrite sum_counts_set.
    change (sum_counts (e :: es)) with (snd e + sum_counts es)%Z. lia.
Qed.

Lemma total_animals_page (lower : pystr -> pystr) self soup :
  total_animals (fst (_parse_page lower self soup))
  = (total_animals self
     + sum_counts (page_entries lower (_only_russian self)
                                (_russian_letters self) soup))%Z.
Proof.
  rewrite !total_animals_sum, parse_page_letters. apply sum_counts_fold.
Qed.

(** X5.  After a page, [total_animals] has grown by the counts of the groups
    that the page contributed. *)
Theorem total_animals_parse_page :
  forall (lower : pystr -> pystr) self soup,
    total_animals (fst (_parse_page lower self soup))
    = (total_animals self
       + sum_counts (page_entries lower (_only_russian self)
                                  (_russian_letters self) soup))%Z.
Proof. intros lower self soup. apply total_animals_page. Qed.

(** *** Counts are lengths *)

Lemma entries_nonneg (lower : pystr -> pystr) flag alphabet groups :
  Forall (fun e => (0 <= snd e)%Z) (entries lower flag alphabet groups).
Proof.
  unfold entries. induction groups as [|g groups IH]; cbn [flat_map].
  - constructor.
  - apply Forall_app. split; [|exact IH].
    unfold group_entry.
    destruct (find g (utf8 "h3") [] None); [|constructor].
    destruct (find g (utf8 "ul") [] None); [|constructor].
    cbv zeta. destruct (flag && negb (contains _ _)); constructor.
    + cbn [snd]. apply Nat2Z.is_nonneg.
    + constructor.
Qed.

Lemma page_entries_nonneg (lower : pystr -> pystr) flag alphabet soup :
  Forall (fun e => (0 <= snd e)%Z) (page_entries lower flag alphabet soup).
Proof.
  unfold page_entries. destruct (page_groups soup).
  - apply entries_nonneg.
  - constructor.
Qed.

Lemma total_nonneg (es : list (pystr * Z)) k :
  Forall (fun e => (0 <= snd e)%Z) es -> (0 <= total k es)%Z.
Proof.
  induction 1 as [|[k' c] es Hc _ IH]; cbn [total]; [lia|].
  cbn [snd] in Hc. destruct (eqb k' k); lia.
Qed.

Lemma sum_counts_nonneg (es : list (pystr * Z)) :
  Forall (fun e => (0 <= snd e)%Z) es -> (0 <= sum_counts es)%Z.
Proof.
  unfold sum_counts. induction 1 as [|e es He _ IH]; cbn [map fold_right]; lia.
Qed.

Lemma page_keeps_count (lower : pystr -> pystr) self soup k v :
  lookup (letters_result self) k = Some v ->
  exists v',
    lookup (letters_result (fst (_parse_page lower self soup))) k = Some v'
    /\ (v <= v')%Z.
Proof.
  intros Hk.
  rewrite parse_page_letters, lookup_fold_add_entry.
  destruct (mentions k _).
  - eexists; split; [reflexivity|]. unfold get. rewrite Hk.
    pose proof (total_nonneg k (page_entries_nonneg lower
                  (_only_russian self) (_russian_letters self) soup)).
    lia.
  - exists v. split; [exact Hk | lia].
Qed.

(** X6.  A page removes no key and lowers no count. *)
Theorem parse_page_keeps_counts :
  forall (lower : pystr -> pystr) self soup k v,
    lookup (letters_result self) k = Some v ->
    exists v',
      lookup (letters_result (fst (_parse_page lower self soup))) k = Some v'
      /\ (v <= v')%Z.
Proof. intros lower self soup k v. apply page_keeps_count. Qed.

Lemma parse_page_keeps_counts_witness :
  exists v',
    lookup (letters_result
              (fst (_parse_page lower_basic
                      (fst (_parse_page lower_basic (__init__ false) page_a))
                      page_b)))
           (utf8 "А") = Some v'
    /\ (2 <= v')%Z.
Proof.
  apply parse_page_keeps_counts. vm_compute. reflexivity.
Defined.

Lemma set_nonneg (d : dict Z) k v :
  Forall (fun kv => (0 <= snd kv)%Z) d -> (0 <= v)%Z ->
  Forall (fun kv => (0 <= snd kv)%Z) (set d k v).
Proof.
  intros Hd Hv. induction Hd as [|[k' v'] d Hkv Hd IH]; cbn [set].
  - constructor; [exact Hv | constructor].
  - destruct (eqb k' k); constructor; auto.
Qed.

Lemma get_nonneg (d : dict Z) k :
  Forall (fun kv => (0 <= snd kv)%Z) d -> (0 <= get d k 0)%Z.
Proof.
  unfold get. induction 1 as [|[k' v'] d Hkv Hd IH]; cbn [lookup]; [lia|].
  destruct (eqb k' k); [exact Hkv | exact IH].
Qed.

Lemma fold_add_entry_nonneg (es : list (pystr * Z)) (d : dict Z) :
  Forall (fun e => (0 <= snd e)%Z) es ->
  Forall (fun kv => (0 <= snd kv)%Z) d ->
  Forall (fun kv => (0 <= snd kv)%Z) (fold_left add_entry es d).
Proof.
  intros Hes. revert d. induction Hes as [|e es He _ IH]; intros d Hd;
    cbn [fold_left]; [exact Hd|].
  apply IH. unfold add_entry. apply set_nonneg; [exact Hd|].
  pose proof (get_nonneg (fst e) Hd). lia.
Qed.

(** X7.  Counts that are not negative stay so, and then [total_animals] is
    not negative and does not shrink. *)
Theorem parse_page_counts_nonneg :
  forall (lower : pystr -> pystr) self soup,
    Forall (fun kv => (0 <= snd kv)%Z) (letters_result self) ->
    Forall (fun kv => (0 <= snd kv)%Z)
           (letters_result (fst (_parse_page lower self soup)))
    /\ (0 <= total_animals self
        <= total_animals (fst (_parse_page lower self soup)))%Z.
Proof.
  intros lower self soup Hd. split.
  - rewrite parse_page_letters.
    apply fold_add_entry_nonneg; [apply page_entries_nonneg | exact Hd].
  - rewrite total_animals_page, total_animals_sum.
    pose proof (sum_counts_nonneg Hd).
    pose proof (sum_counts_nonneg
                  (page_entries_nonneg lower (_only_russian self)
                                       (_russian_letters self) soup)).
    lia.
Qed.

Lemma parse_page_counts_nonneg_witness :
  (0 <= total_animals (__init__ false)
   <= total_animals (fst (_parse_page lower_basic (__init__ false)
                                      HTML_PARSE_1)))%Z.
Proof.
  apply (parse_page_counts_nonneg lower_basic (__init__ false) HTML_PARSE_1).
  constructor.
Defined.

(** *** Order of the keys *)

Lemma keys_of_set (d : dict Z) k v :
  keys_of (set d k v) = if has_key d k then keys_of d else keys_of d ++ [k].
Proof.
  unfold has_key, keys_of.
  induction d as [|[k' v'] d IH]; cbn [set map fst existsb app].
  - reflexivity.
  - destruct (eqb k' k) eqn:E; cbn [orb map fst]; [reflexivity|].
    rewrite IH. destruct (existsb _ (map fst d)); reflexivity.
Qed.

Lemma keys_of_fold (es : list (pystr * Z)) (d : dict Z) :
  keys_of (fold_left add_entry es d)
  = keys_of d ++ first_seen (keys_of d) (map fst es).
Proof.
  revert d; induction es as [|[k c] es IH]; intros d;
    cbn [fold_left map fst first_seen].
  - now rewrite app_nil_r.
  - rewrite IH. unfold add_entry. cbn [fst snd]. rewrite keys_of_set.
    unfold has_key. destruct (existsb _ (keys_of d)); [reflexivity|].
    now rewrite <- app_assoc.
Qed.

(** X8.  The keys keep their places and the new letters of a page go behind
    them, each once, in the order in which the page first shows them:
    the order in which [save_to_csv] writes the rows. *)
Theorem parse_page_key_order :
  forall (lower : pystr -> pystr) self soup,
    keys_of (letters_result (fst (_parse_page lower self soup)))
    = keys_of (letters_result self)
      ++ first_seen (keys_of (letters_result self))
           (map fst (page_entries lower (_only_russian self)
                                  (_russian_letters self) soup)).
Proof.
  intros lower self soup. rewrite parse_page_letters. apply keys_of_fold.
Qed.

(** X9.  [_parse_page] writes to [letters_result] only: the address, the
    timeout, the page counter and the filter stay as they were. *)
Theorem parse_page_frame :
  forall (lower : pystr -> pystr) self soup,
    let self' := fst (_parse_page lower self soup) in
    base_url self' = base_url self
    /\ timeout self' = timeout self
    /\ pages_processed self' = pages_processed self
    /\ _only_russian self' = _only_russian self
    /\ _russian_letters self' = _russian_letters self.
Proof.
  intros lower self soup self'. subst self'.
  rewrite parse_page_state. repeat split.
Qed.

(** *** The link that is returned *)

Lemma hd_error_filter_some {A : Type} (p : A -> bool) (l : list A) (x : A) :
  hd_error (filter p l) = Some x -> In x l /\ p x = true.
Proof.
  intros H. apply filter_In.
  destruct (filter p l) as [|y rest]; [discriminate|].
  injection H as ->. left. reflexivity.
Qed.

Lemma next_page_url_total (urljoin : pystr -> pystr -> pystr) self soup :
  JoinErrors._next_page_url (fun base href => @inr unit _ (urljoin base href))
                            self soup
  = (inr (fst (_next_page_url urljoin self soup)),
     snd (_next_page_url urljoin self soup)).
Proof.
  unfold JoinErrors._next_page_url, _next_page_url.
  destruct (find soup _ _ _) as [[name attrs contents | kind t]|];
    try reflexivity.
  destruct (attr attrs (utf8 "href")); reflexivity.
Qed.

(** X10.  [urljoin] can raise, and then the method ends before anything
    is logged.  A returned URL is never made up: it is what [urljoin]
    gives for the base URL and the [href] of an [a] tag of the document
    whose [.string] is the label.  A call that returns has logged one
    [DEBUG] record, which carries the URL when there is one; a call
    that ends in an error of [urljoin] has logged none, and the error
    is the one of joining the [href] of such a tag. *)
Theorem next_page_url_sound :
  forall (E : Type) (urljoin : pystr -> pystr -> E + pystr) self soup,
    match JoinErrors._next_page_url urljoin self soup with
    | (inr (Some url), log) =>
        log = [debug (utf8 "Следующая страница: " ++ url)]
        /\ exists link href,
            In link (descendants soup)
            /\ Notions.is_next_anchor link
            /\ Notions.href_of link = Some href
            /\ urljoin (base_url self) href = inr url
    | (inr None, log) =>
        log = [debug (utf8 "Ссылка «Следующая страница» не найдена")]
    | (inl e, log) =>
        log = []
        /\ exists link href,
            In link (descendants soup)
            /\ Notions.is_next_anchor link
            /\ Notions.href_of link = Some href
            /\ urljoin (base_url self) href = inl e
    end.
Proof.
  intros E urljoin self soup.
  unfold JoinErrors._next_page_url, find, find_all.
  destruct (hd_error (filter _ (descendants soup))) as [link|] eqn:Hfind;
    [|reflexivity].
  apply hd_error_filter_some in Hfind as [Hin Hmatch].
  destruct link as [name attrs contents | kind t]; [|reflexivity].
  destruct (attr attrs (utf8 "href")) as [href|] eqn:Hhref; [|reflexivity].
  destruct (urljoin (base_url self) href) as [e|url] eqn:Hjoin.
  - split; [reflexivity|].
    exists (Tag name attrs contents), href. repeat split.
    + exact Hin.
    + apply ScraperSpec.matches_next_anchor, Hmatch.
    + exact Hhref.
    + exact Hjoin.
  - split; [reflexivity|].
    exists (Tag name attrs contents), href. repeat split.
    + exact Hin.
    + apply ScraperSpec.matches_next_anchor, Hmatch.
    + exact Hhref.
    + exact Hjoin.
Qed.

(** *** Which keys a page can add *)

Lemma first_seen_in (seen labels : list pystr) k :
  In k (first_seen seen labels) -> In k labels.
Proof.
  revert seen; induction labels as [|l labels IH]; intros seen;
    cbn [first_seen]; [tauto|].
  destruct (existsb _ seen).
  - intros H. right. eapply IH, H.
  - intros [-> | H]; [left; reflexivity | right; eapply IH, H].
Qed.

Lemma entry_of_group (lower : pystr -> pystr) flag alphabet groups e :
  In e (entries lower flag alphabet groups) ->
  exists g, In g groups /\ group_entry lower flag alphabet g = Some e.
Proof.
  unfold entries. intros H. apply in_flat_map in H as [g [Hg He]].
  exists g. split; [exact Hg|].
  destruct (group_entry lower flag alphabet g) as [e'|]; [|destruct He].
  destruct He as [-> | []]. reflexivity.
Qed.

Lemma new_key_entry (lower : pystr -> pystr) self soup k :
  In k (keys_of (letters_result (fst (_parse_page lower self soup)))) ->
  In k (keys_of (letters_result self))
  \/ exists g c,
      group_entry lower (_only_russian self) (_russian_letters self) g
      = Some (k, c).
Proof.
  rewrite parse_page_letters, keys_of_fold. intros H.
  apply in_app_or in H as [H | H]; [left; exact H | right].
  apply first_seen_in, in_map_iff in H as [[k' c] [Hk He]].
  cbn [fst] in Hk. subst k'.
  unfold page_entries in He. destruct (page_groups soup); [|destruct He].
  apply entry_of_group in He as [g [_ Hg]]. eauto.
Qed.

(** X11.  With Russian-only filtering, a page adds no key whose lowercased
    form does not occur in the alphabet string. *)
Theorem filtered_page_adds_only_alphabet_keys :
  forall (lower : pystr -> pystr) self soup k,
    _only_russian self = true ->
    In k (keys_of (letters_result (fst (_parse_page lower self soup)))) ->
    In k (keys_of (letters_result self))
    \/ infix (lower k) (_russian_letters self).
Proof.
  intros lower self soup k Hflag Hin.
  apply new_key_entry in Hin as [H | [g [c Hg]]]; [left; exact H | right].
  rewrite Hflag in Hg. unfold group_entry in Hg.
  destruct (find g (utf8 "h3") [] None) as [letter_tag|]; [|discriminate].
  destruct (find g (utf8 "ul") [] None) as [ul_tag|]; [|discriminate].
  cbv zeta in Hg. cbn [andb] in Hg.
  destruct (contains (_russian_letters self)
                     (lower (strip (text letter_tag)))) eqn:E;
    [|discriminate].
  cbn [negb] in Hg. injection Hg as <- _.
  apply contains_spec, E.
Qed.

Lemma filtered_page_adds_only_alphabet_keys_witness :
  In (utf8 "Б") (keys_of (letters_result (__init__ true)))
  \/ infix (lower_basic (utf8 "Б")) (_russian_letters (__init__ true)).
Proof.
  refine (filtered_page_adds_only_alphabet_keys lower_basic (__init__ true)
            HTML_PARSE_ONLY_RU (utf8 "Б") _ _).
  - reflexivity.
  - vm_compute. left. reflexivity.
Defined.

Lemma lstrip_head (s : pystr) c rest :
  lstrip s = c :: rest -> isspace c = false.
Proof.
  induction s as [|a s IH]; cbn [lstrip]; [discriminate|].
  destruct (isspace a) eqn:E; [exact IH|].
  intros H. injection H as <- _. exact E.
Qed.

Lemma lstrip_suffix (s : pystr) : exists front, s = front ++ lstrip s.
Proof.
  induction s as [|a s [front IH]]; cbn [lstrip]; [exists []; reflexivity|].
  destruct (isspace a).
  - exists (a :: front). cbn [app]. now rewrite <- IH.
  - exists []. reflexivity.
Qed.

Lemma strip_trimmed (s : pystr) : trimmed (strip s).
Proof.
  unfold strip, rstrip. split.
  - intros c rest H.
    destruct (lstrip_suffix (rev (lstrip s))) as [front Hfront].
    apply (f_equal (@rev char)) in Hfront.
    rewrite rev_involutive, rev_app_distr, H in Hfront.
    cbn [app] in Hfront. apply (lstrip_head s Hfront).
  - intros c front H.
    apply (f_equal (@rev char)) in H.
    rewrite rev_involutive, rev_app_distr in H. cbn [rev app] in H.
    apply (lstrip_head _ H).
Qed.

(** X12.  Every key that a page adds is trimmed: it neither begins nor ends
    with whitespace. *)
Theorem page_adds_only_trimmed_keys :
  forall (lower : pystr -> pystr) self soup k,
    In k (keys_of (letters_result (fst (_parse_page lower self soup)))) ->
    In k (keys_of (letters_result self)) \/ trimmed k.
Proof.
  intros lower self soup k Hin.
  apply new_key_entry in Hin as [H | [g [c Hg]]]; [left; exact H | right].
  unfold group_entry in Hg.
  destruct (find g (utf8 "h3") [] None) as [letter_tag|]; [|discriminate].
  destruct (find g (utf8 "ul") [] None) as [ul_tag|]; [|discriminate].
  cbv zeta in Hg. destruct (_only_russian self && negb _); [discriminate|].
  injection Hg as <- _. apply strip_trimmed.
Qed.

Lemma page_adds_only_trimmed_keys_witness :
  In (utf8 "А") (keys_of (letters_result (__init__ false)))
  \/ trimmed (utf8 "А").
Proof.
  refine (page_adds_only_trimmed_keys lower_basic (__init__ false)
            HTML_PARSE_1 (utf8 "А") _).
  vm_compute. left. reflexivity.
Defined.

End ScraperMore.

(* ================================================================= *)
(** ** task2: the loop of [parse] *)

Module ParseMore.

Import Soup Task2 Task2Run PyDict PyDictFacts Task2Facts MoreNotions
       MoreFixtures.

Lemma parse_page_log_no_info (lower : pystr -> pystr) self soup :
  no_info (snd (_parse_page lower self soup)).
Proof.
  unfold _parse_page, no_info.
  destruct (find soup _ _ _) as [category_div|].
  - destruct (find category_div _ _ _); cbn [snd];
      repeat constructor; discriminate.
  - repeat constructor; discriminate.
Qed.

Lemma next_page_url_log_no_info (urljoin : pystr -> pystr -> pystr) self soup :
  no_info (snd (_next_page_url urljoin self soup)).
Proof.
  unfold _next_page_url, no_info.
  destruct (find soup _ _ _) as [[name attrs contents | kind t]|];
    try (repeat constructor; discriminate).
  destruct (attr attrs _); repeat constructor; discriminate.
Qed.

Lemma next_page_url_base (urljoin : pystr -> pystr -> pystr) s1 s2 soup :
  base_url s1 = base_url s2 ->
  _next_page_url urljoin s1 soup = _next_page_url urljoin s2 soup.
Proof. intros H. unfold _next_page_url. rewrite H. reflexivity. Qed.

Lemma with_fields_twice (self : ParseWikiAnimals) d1 d2 n1 n2 :
  with_pages_processed
    (with_letters_result
       (with_pages_processed (with_letters_result self d1) n1) d2) n2
  = with_pages_processed (with_letters_result self d2) n2.
Proof. reflexivity. Qed.

Lemma with_fields_eq (self : ParseWikiAnimals) d1 d2 n1 n2 :
  d1 = d2 -> n1 = n2 ->
  with_pages_processed (with_letters_result self d1) n1
  = with_pages_processed (with_letters_result self d2) n2.
Proof. intros -> ->. reflexivity. Qed.

Section Run.

Variable lower : pystr -> pystr.
Variable urljoin : pystr -> pystr -> pystr.
Variable W E Response : Type.
Variable client_get : pystr -> Z -> W -> (E + Response) * W.
Variable raise_for_status : Response -> option E.
Variable response_text : Response -> pystr.
Variable BeautifulSoup : pystr -> node.

#[local] Abbreviation get_soup :=
  (_get_soup client_get raise_for_status response_text BeautifulSoup).
#[local] Abbreviation loop :=
  (parse_loop lower urljoin client_get raise_for_status response_text
              BeautifulSoup).

Lemma get_soup_timeout s1 s2 url w :
  timeout s1 = timeout s2 -> get_soup s1 url w = get_soup s2 url w.
Proof. intros H. unfold _get_soup. rewrite H. reflexivity. Qed.

Lemma loop_step fuel c rest self w log :
  loop (S fuel) (Some (c :: rest)) self w log
  = match get_soup self (c :: rest) w with
    | (inl e, w') => (Raised e, self, w', log)
    | (inr soup, w') =>
        loop fuel (fst (_next_page_url urljoin (after_page lower self soup) soup))
             (after_page lower self soup) w'
             (log ++ snd (_parse_page lower self soup)
                  ++ snd (_next_page_url urljoin (after_page lower self soup) soup))
    end.
Proof. reflexivity. Qed.

Lemma loop_stop fuel url self w log :
  truthy url = false -> loop fuel url self w log = (Finished, self, w, log).
Proof.
  intros H. destruct url as [[|c rest]|]; try discriminate H;
    destruct fuel; reflexivity.
Qed.

Lemma after_page_letters self soup :
  after_page lower self soup
  = with_pages_processed
      (with_letters_result self
         (fold_left add_entry
            (page_entries lower (_only_russian self) (_russian_letters self)
                          soup)
            (letters_result self)))
      (pages_processed self + 1).
Proof. unfold after_page. rewrite parse_page_state. reflexivity. Qed.

(** *** Where the loop does not start, and where it breaks *)

(** X13.  With an empty [base_url] the condition of the loop is false at once:
    no request is made, nothing is counted, and the summary is logged. *)
Theorem parse_empty_base_url :
  forall self,
    base_url self = [] ->
    forall fuel w,
      parse lower urljoin client_get raise_for_status response_text
            BeautifulSoup fuel self w
      = (Finished, self, w, [summary self]).
Proof.
  intros self Hbase fuel w. unfold parse. rewrite Hbase.
  rewrite loop_stop by reflexivity. reflexivity.
Qed.

(** X14.  When the first request fails, in the client or in the status check,
    the error leaves [parse]: the instance is as before and nothing is
    logged, the summary included. *)
Theorem parse_first_request_fails :
  forall self w e w',
    base_url self <> [] ->
    client_get (base_url self) (timeout self) w = (inl e, w')
    \/ (exists response,
           client_get (base_url self) (timeout self) w = (inr response, w')
           /\ raise_for_status response = Some e) ->
    forall fuel,
      parse lower urljoin client_get raise_for_status response_text
            BeautifulSoup (S fuel) self w
      = (Raised e, self, w', []).
Proof.
  intros self w e w' Hbase Hfail fuel. unfold parse.
  destruct (base_url self) as [|c rest] eqn:Hurl; [contradiction|].
  rewrite loop_step. unfold _get_soup.
  destruct Hfail as [H | [response [H Hstatus]]]; rewrite H.
  - reflexivity.
  - rewrite Hstatus. reflexivity.
Qed.

(** *** What every run keeps *)

Lemma loop_keeps fuel :
  forall url self w log,
    let '(_, self', _, _) := loop fuel url self w log in
    base_url self' = base_url self
    /\ timeout self' = timeout self
    /\ _only_russian self' = _only_russian self
    /\ _russian_letters self' = _russian_letters self
    /\ (pages_processed self <= pages_processed self'
        <= pages_processed self + Z.of_nat fuel)%Z
    /\ forall k v,
        lookup (letters_result self) k = Some v ->
        exists v', lookup (letters_result self') k = Some v' /\ (v <= v')%Z.
Proof.
  induction fuel as [|fuel IH]; intros url self w log.
  - destruct url as [[|c rest]|]; cbn [parse_loop];
      (repeat split; try lia; intros k v Hk; exists v; split; [exact Hk|lia]).
  - destruct url as [[|c rest]|];
      try (cbn [parse_loop]; repeat split; try lia;
           intros k v Hk; exists v; split; [exact Hk|lia]).
    rewrite loop_step.
    destruct (get_soup self (c :: rest) w) as [[e|soup] w1].
    + repeat split; try lia. intros k v Hk; exists v; split; [exact Hk|lia].
    + specialize (IH (fst (_next_page_url urljoin (after_page lower self soup)
                                          soup))
                     (after_page lower self soup) w1
                     (log ++ snd (_parse_page lower self soup)
                          ++ snd (_next_page_url urljoin
                                    (after_page lower self soup) soup))).
      destruct (loop fuel _ (after_page lower self soup) w1 _)
        as [[[ending self'] w'] log'].
      destruct IH as (Hb & Ht & Hf & Ha & Hp & Hk).
      rewrite after_page_letters in Hb, Ht, Hf, Ha, Hp.
      cbn [base_url timeout _only_russian _russian_letters pages_processed
           with_pages_processed with_letters_result] in Hb, Ht, Hf, Ha, Hp.
      repeat split; try assumption; try lia.
      intros k v Hv.
      destruct (ScraperMore.page_keeps_count lower self soup k Hv)
        as [v1 [Hv1 Hle1]].
      destruct (Hk k v1) as [v2 [Hv2 Hle2]].
      { unfold after_page. exact Hv1. }
      exists v2. split; [exact Hv2 | lia].
Qed.

(** X15.  However [parse] ends, finished, broken off by an error or still
    running, it leaves the address, the timeout and the filter alone,
    counts at most one page per iteration and never counts down, and
    every letter keeps at least the count it had: what was gathered
    before an error is still in the instance. *)
Theorem parse_keeps :
  forall fuel self w,
    let '(_, self', _, _) :=
      parse lower urljoin client_get raise_for_status response_text
            BeautifulSoup fuel self w in
    base_url self' = base_url self
    /\ timeout self' = timeout self
    /\ _only_russian self' = _only_russian self
    /\ _russian_letters self' = _russian_letters self
    /\ (pages_processed self <= pages_processed self'
        <= pages_processed self + Z.of_nat fuel)%Z
    /\ forall k v,
        lookup (letters_result self) k = Some v ->
        exists v', lookup (letters_result self') k = Some v' /\ (v <= v')%Z.
Proof.
  intros fuel self w. unfold parse.
  pose proof (loop_keeps fuel (Some (base_url self)) self w []) as H.
  destruct (loop fuel (Some (base_url self)) self w [])
    as [[[ending self'] w'] log].
  destruct ending; exact H.
Qed.

(** *** The summary *)

Lemma loop_log_no_info fuel :
  forall url self w log,
    no_info log ->
    no_info (snd (loop fuel url self w log)).
Proof.
  induction fuel as [|fuel IH]; intros url self w log Hlog.
  - destruct url as [[|c rest]|]; exact Hlog.
  - destruct url as [[|c rest]|]; try exact Hlog.
    rewrite loop_step.
    destruct (get_soup self (c :: rest) w) as [[e|soup] w1]; [exact Hlog|].
    apply IH. unfold no_info. rewrite !Forall_app. repeat split.
    + exact Hlog.
    + apply parse_page_log_no_info.
    + apply next_page_url_log_no_info.
Qed.

(** X16.  The summary is the last record of a run that finished, and the only
    [INFO] record; a run that was broken off by an error, or is still
    going, has logged no [INFO] record. *)
Theorem parse_summary_only_when_finished :
  forall fuel self w,
    match parse lower urljoin client_get raise_for_status response_text
                BeautifulSoup fuel self w with
    | (Finished, self', _, log) =>
        exists before, log = before ++ [summary self'] /\ no_info before
    | (_, _, _, log) => no_info log
    end.
Proof.
  intros fuel self w. unfold parse.
  pose proof (loop_log_no_info fuel (Some (base_url self)) self w
                               (Forall_nil _)) as H.
  destruct (loop fuel (Some (base_url self)) self w [])
    as [[[ending self'] w'] log].
  cbn [snd] in H. destruct ending.
  - exists log. split; [reflexivity | exact H].
  - exact H.
  - exact H.
Qed.

(** *** A site that serves a chain of pages *)

Lemma loop_crawl self0 url w pages w' :
  crawl urljoin client_get raise_for_status response_text BeautifulSoup
        self0 url w pages w' ->
  forall self log fuel,
    base_url self = base_url self0 ->
    timeout self = timeout self0 ->
    (List.length pages <= fuel)%nat ->
    exists log',
      loop fuel (Some url) self w log
      = (Finished, after_pages lower self pages, w', log').
Proof.
  induction 1 as [url w soup w' Hurl Hget Hnext
                 | url w soup w' next pages w'' Hurl Hget Hnext Hcrawl IH];
    intros self log fuel Hbase Htime Hfuel.
  - destruct url as [|c rest]; [contradiction|].
    destruct fuel as [|fuel]; [cbn in Hfuel; lia|].
    rewrite loop_step, (get_soup_timeout self self0 _ _ Htime), Hget.
    rewrite (next_page_url_base urljoin (after_page lower self soup) self0)
      by (rewrite after_page_letters; exact Hbase).
    rewrite loop_stop by exact Hnext.
    eexists. f_equal. f_equal. f_equal.
    rewrite after_page_letters. unfold after_pages.
    apply with_fields_eq; [|reflexivity].
    cbn [flat_map]. now rewrite app_nil_r.
  - destruct url as [|c rest]; [contradiction|].
    destruct fuel as [|fuel]; [cbn in Hfuel; lia|].
    rewrite loop_step, (get_soup_timeout self self0 _ _ Htime), Hget.
    rewrite (next_page_url_base urljoin (after_page lower self soup) self0)
      by (rewrite after_page_letters; exact Hbase).
    rewrite Hnext.
    destruct (IH (after_page lower self soup)
                 (log ++ snd (_parse_page lower self soup)
                      ++ snd (_next_page_url urljoin self0 soup)) fuel)
      as [log' Hloop].
    + rewrite after_page_letters. exact Hbase.
    + rewrite after_page_letters. exact Htime.
    + cbn [List.length] in Hfuel. lia.
    + exists log'. rewrite Hloop. f_equal. f_equal. f_equal.
      rewrite after_page_letters. unfold after_pages.
      rewrite with_fields_twice. apply with_fields_eq.
      * cbn [flat_map _only_russian _russian_letters letters_result
             with_pages_processed with_letters_result].
        now rewrite fold_left_app.
      * cbn [List.length pages_processed with_pages_processed]. lia.
Qed.

(** X18.  When the site serves a chain of pages that ends, [parse] with enough
    iterations finishes: it has counted every page of the chain once,
    merged their groups in order, kept the rest of the instance, left
    the network where the last request left it, and logged the summary
    last. *)
Theorem parse_follows_crawl :
  forall self w pages w' fuel,
    crawl urljoin client_get raise_for_status response_text BeautifulSoup
          self (base_url self) w pages w' ->
    (List.length pages <= fuel)%nat ->
    exists before,
      parse lower urljoin client_get raise_for_status response_text
            BeautifulSoup fuel self w
      = (Finished, after_pages lower self pages, w',
         before ++ [summary (after_pages lower self pages)]).
Proof.
  intros self w pages w' fuel Hcrawl Hfuel. unfold parse.
  destruct (loop_crawl Hcrawl self [] (fuel := fuel) eq_refl eq_refl Hfuel)
    as [log Hloop].
  rewrite Hloop. exists log. reflexivity.
Qed.

End Run.

Lemma parse_empty_base_url_witness :
  parse lower_basic target_only site_get site_status (fun body => body)
        site_soup 0 no_address 0%nat
  = (Finished, no_address, 0%nat, [summary no_address]).
Proof.
  exact (@parse_empty_base_url lower_basic target_only nat Z pystr site_get
           site_status (fun body => body) site_soup no_address eq_refl
           0%nat 0%nat).
Defined.

Lemma parse_first_request_fails_witness :
  parse lower_basic target_only refusing_get site_status (fun body => body)
        site_soup 3 (__init__ false) 0%nat
  = (Raised 503%Z, __init__ false, 1%nat, []).
Proof.
  refine (@parse_first_request_fails lower_basic target_only nat Z pystr
            refusing_get site_status (fun body => body) site_soup
            (__init__ false) 0%nat 503%Z 1%nat _ _ 2%nat).
  - vm_compute. discriminate.
  - left. reflexivity.
Defined.

Lemma site_crawl :
  crawl target_only site_get site_status (fun body => body) site_soup
        (__init__ false) (base_url (__init__ false)) 0%nat
        [page_a_linked; page_b_last] 2%nat.
Proof.
  eapply (@crawl_next target_only nat Z pystr site_get site_status
            (fun body => body) site_soup (__init__ false)
            (base_url (__init__ false)) 0%nat page_a_linked 1%nat
            (utf8 "/wiki/next")).
  - vm_compute. discriminate.
  - vm_compute. reflexivity.
  - vm_compute. reflexivity.
  - apply crawl_last.
    + vm_compute. discriminate.
    + vm_compute. reflexivity.
    + vm_compute. reflexivity.
Defined.

Lemma parse_follows_crawl_witness :
  exists before,
    parse lower_basic target_only site_get site_status (fun body => body)
          site_soup 2 (__init__ false) 0%nat
    = (Finished,
       after_pages lower_basic (__init__ false) [page_a_linked; page_b_last],
       2%nat,
       before ++ [summary (after_pages lower_basic (__init__ false)
                                       [page_a_linked; page_b_last])]).
Proof.
  refine (@parse_follows_crawl lower_basic target_only nat Z pystr site_get
            site_status (fun body => body) site_soup (__init__ false) 0%nat
            [page_a_linked; page_b_last] 2%nat 2%nat site_crawl _).
  apply le_n.
Defined.

(** The two pages of the site, walked: two pages counted, [А] three
    times and [Б] once. *)
Example site_totals :
  let self := after_pages lower_basic (__init__ false)
                          [page_a_linked; page_b_last] in
  pages_processed self = 2%Z
  /\ letters_result self = [(utf8 "А", 3%Z); (utf8 "Б", 1%Z)]
  /\ total_animals self = 4%Z.
Proof. vm_compute. repeat split. Qed.

End ParseMore.

(* ================================================================= *)
(** ** task2: the file of [save_to_csv] determines the mapping *)

Module CsvMore.

Import Task2 Task2Csv PyDict MoreNotions.

(** *** Decimal numerals *)

Lemma decode_ascii (bs : list N) :
  Forall (fun b => (b < 128)%N) bs -> decode bs = bs.
Proof.
  induction 1 as [|b bs Hb _ IH]; [reflexivity|].
  cbn [decode]. apply N.ltb_lt in Hb. rewrite Hb, IH. reflexivity.
Qed.

Lemma string_of_uint_chars (d : Decimal.uint) :
  Forall numeral_char
         (map N_of_ascii (list_ascii_of_string (NilEmpty.string_of_uint d))).
Proof.
  induction d; cbn [NilEmpty.string_of_uint list_ascii_of_string map];
    constructor; try exact IHd; right; vm_compute; split; discriminate.
Qed.

Lemma string_of_int_chars (d : Decimal.int) :
  Forall numeral_char
         (map N_of_ascii (list_ascii_of_string (NilEmpty.string_of_int d))).
Proof.
  destruct d as [d|d]; cbn [NilEmpty.string_of_int list_ascii_of_string map].
  - apply string_of_uint_chars.
  - constructor; [left; reflexivity | apply string_of_uint_chars].
Qed.

Lemma of_Z_bytes (z : Z) :
  of_Z z
  = map N_of_ascii
        (list_ascii_of_string (NilEmpty.string_of_int (Z.to_int z))).
Proof.
  unfold of_Z, utf8. apply decode_ascii.
  eapply Forall_impl; [|apply string_of_int_chars].
  intros b [-> | [_ H]]; [reflexivity | lia].
Qed.

Lemma of_Z_chars (z : Z) : Forall numeral_char (of_Z z).
Proof. rewrite of_Z_bytes. apply string_of_int_chars. Qed.

Lemma N_of_ascii_inj (a b : ascii) : N_of_ascii a = N_of_ascii b -> a = b.
Proof.
  intros H. rewrite <- (ascii_N_embedding a), <- (ascii_N_embedding b).
  now rewrite H.
Qed.

Lemma map_N_of_ascii_inj (l1 l2 : list ascii) :
  map N_of_ascii l1 = map N_of_ascii l2 -> l1 = l2.
Proof.
  revert l2; induction l1 as [|a l1 IH]; intros [|b l2] H;
    try discriminate H; [reflexivity|].
  cbn [map] in H. injection H as Hab Hl.
  f_equal; [apply N_of_ascii_inj, Hab | apply IH, Hl].
Qed.

(** [str(n)] tells integers apart. *)
Lemma of_Z_inj (x y : Z) : of_Z x = of_Z y -> x = y.
Proof.
  rewrite !of_Z_bytes. intros H. apply map_N_of_ascii_inj in H.
  assert (Hs : NilEmpty.string_of_int (Z.to_int x)
               = NilEmpty.string_of_int (Z.to_int y)).
  { rewrite <- (string_of_list_ascii_of_string
                  (NilEmpty.string_of_int (Z.to_int x))),
            <- (string_of_list_ascii_of_string
                  (NilEmpty.string_of_int (Z.to_int y))).
    now rewrite H. }
  assert (Hi : Some (Z.to_int x) = Some (Z.to_int y)).
  { rewrite <- !NilEmpty.isi. now rewrite Hs. }
  injection Hi as Hi.
  rewrite <- (DecimalZ.of_to x), <- (DecimalZ.of_to y). now rewrite Hi.
Qed.

(** *** Where a field ends *)

Lemma split_at_first {A : Type} (a : A) (l1 l2 x y : list A) :
  ~ In a l1 -> ~ In a l2 ->
  l1 ++ a :: x = l2 ++ a :: y -> l1 = l2 /\ x = y.
Proof.
  revert l2; induction l1 as [|b l1 IH]; intros [|c l2] H1 H2 H;
    cbn [app] in H.
  - injection H as ->. auto.
  - injection H as <- _. exfalso. apply H2. left. reflexivity.
  - injection H as -> _. exfalso. apply H1. left. reflexivity.
  - injection H as -> H.
    destruct (IH l2) as [-> ->]; auto.
    + intros Hin. apply H1. now right.
    + intros Hin. apply H2. now right.
Qed.

Lemma not_special_not_in (s : pystr) (c : char) :
  existsb special s = false -> special c = true -> ~ In c s.
Proof.
  intros Hs Hc Hin.
  assert (H : existsb special s = true)
    by (apply existsb_exists; exists c; auto).
  congruence.
Qed.

Lemma double_quotes_end (l1 l2 x y : pystr) :
  double_quotes l1 ++ QUOTE :: COMMA :: x
  = double_quotes l2 ++ QUOTE :: COMMA :: y ->
  l1 = l2 /\ x = y.
Proof.
  revert l2; induction l1 as [|c l1 IH]; intros [|c' l2] H;
    cbn [double_quotes app] in H.
  - injection H as ->. auto.
  - destruct (c' =? QUOTE)%N eqn:E; cbn [app] in H.
    + injection H as H _. discriminate H.
    + injection H as H _. apply N.eqb_neq in E. congruence.
  - destruct (c =? QUOTE)%N eqn:E; cbn [app] in H.
    + injection H as H _. discriminate H.
    + injection H as H _. apply N.eqb_neq in E. congruence.
  - destruct (c =? QUOTE)%N eqn:E, (c' =? QUOTE)%N eqn:E'; cbn [app] in H.
    + apply N.eqb_eq in E, E'. subst c c'.
      injection H as H. destruct (IH l2 H) as [-> ->]. auto.
    + injection H as H _. apply N.eqb_neq in E'. congruence.
    + injection H as H _. apply N.eqb_neq in E. congruence.
    + injection H as -> H. destruct (IH l2 H) as [-> ->]. auto.
Qed.

(** The first field of a record can be read back: what follows the
    comma after it does not matter. *)
Lemma write_field_end (l1 l2 x y : pystr) :
  write_field l1 ++ COMMA :: x = write_field l2 ++ COMMA :: y ->
  l1 = l2 /\ x = y.
Proof.
  unfold write_field.
  destruct (existsb special l1) eqn:S1, (existsb special l2) eqn:S2;
    intros H.
  - cbn [app] in H. injection H as H.
    rewrite <- !app_assoc in H. cbn [app] in H.
    apply double_quotes_end, H.
  - exfalso. destruct l2 as [|c l2]; cbn [app] in H.
    + injection H as H _. discriminate H.
    + injection H as H _. subst c. cbn [existsb] in S2.
      discriminate S2.
  - exfalso. destruct l1 as [|c l1]; cbn [app] in H.
    + injection H as H _. discriminate H.
    + injection H as H _. subst c. cbn [existsb] in S1.
      discriminate S1.
  - apply (split_at_first COMMA); [| |exact H];
      eapply not_special_not_in; eauto.
Qed.

Lemma numeral_without_cr (z : Z) : ~ In CR (of_Z z).
Proof.
  intros Hin. pose proof (of_Z_chars z) as H.
  rewrite Forall_forall in H. destruct (H CR Hin) as [E | [E _]].
  - discriminate E.
  - vm_compute in E. apply E. reflexivity.
Qed.

Lemma write_numeral (v : Z) : write_field (of_Z v) = of_Z v.
Proof.
  unfold write_field.
  destruct (existsb special (of_Z v)) eqn:S; [|reflexivity].
  apply existsb_exists in S as [c [Hin Hc]].
  pose proof (of_Z_chars v) as H. rewrite Forall_forall in H.
  unfold special, COMMA, QUOTE, CR, LF in Hc.
  rewrite !orb_true_iff, !N.eqb_eq in Hc.
  destruct (H c Hin) as [E | [H1 H2]]; lia.
Qed.

Lemma row_text (k : pystr) (v : Z) :
  writerow [k; of_Z v] = write_field k ++ COMMA :: of_Z v ++ [CR; LF].
Proof.
  unfold writerow. cbn [map join]. rewrite write_numeral.
  remember (write_field k ++ [COMMA] ++ of_Z v) as record eqn:E.
  destruct record as [|c record].
  - destruct (write_field k); discriminate E.
  - rewrite E, <- !app_assoc. reflexivity.
Qed.

(** X19.  Two mappings with the same file text have the same letters with the
    same counts in the same order: nothing is lost or confused in the
    file, whatever characters the letters hold. *)
Theorem csv_text_inj :
  forall d1 d2 : dict Z, csv_text d1 = csv_text d2 -> d1 = d2.
Proof.
  unfold csv_text.
  induction d1 as [|[k1 v1] d1 IH]; intros [|[k2 v2] d2] H;
    cbn [flat_map fst snd] in H.
  - reflexivity.
  - rewrite row_text in H. destruct (write_field k2); discriminate H.
  - rewrite row_text in H. destruct (write_field k1); discriminate H.
  - rewrite !row_text in H. rewrite <- !app_assoc in H. cbn [app] in H.
    apply write_field_end in H as [-> H].
    rewrite <- !app_assoc in H. cbn [app] in H.
    apply (split_at_first CR) in H as [Hv H];
      [|apply numeral_without_cr|apply numeral_without_cr].
    apply of_Z_inj in Hv. subst v2. injection H as H.
    f_equal. apply IH, H.
Qed.

Lemma csv_text_inj_witness :
  letters_result (fst (_parse_page lower_basic (__init__ false)
                                   TestParseWikiAnimals.HTML_PARSE_1))
  = [(utf8 "А", 2%Z); (utf8 "Б", 1%Z)].
Proof.
  apply csv_text_inj. vm_compute. reflexivity.
Defined.

End CsvMore.

(* ================================================================= *)
(** ** task1: [strict] when annotations need not be classes *)

Module StrictAnySpec.

Import Task1Any Task1Facts.

Section Facts.

Variable W : Type.
Variable repr : value -> pystr.

Lemma isinstance_classes (cs : list pytype) (v : value) (w : W) :
  isinstance v (map AClass cs) w = (Return (Py.isinstance v cs), w).
Proof.
  unfold Py.isinstance.
  induction cs as [|c cs IH]; cbn [map isinstance existsb]; [reflexivity|].
  destruct (issubclass (type_of v) c); [reflexivity | exact IH].
Qed.

Lemma instance_checks_classes (cs : list pytype) (vs : list value) (w : W) :
  instance_checks vs (map AClass cs) w
  = (Return (map (fun v => Py.isinstance v cs) vs), w).
Proof.
  induction vs as [|v vs IH]; cbn [instance_checks map]; [reflexivity|].
  unfold bind at 1. rewrite isinstance_classes.
  unfold bind at 1. rewrite IH. reflexivity.
Qed.

Lemma classes_only (types : list (annotation W)) :
  Forall is_class types -> exists cs, types = map AClass cs.
Proof.
  induction 1 as [|a types Ha _ [cs ->]]; [exists []; reflexivity|].
  destruct a as [c|check]; [|destruct Ha].
  exists (c :: cs). reflexivity.
Qed.

Lemma in_map_AClass (c : pytype) (cs : list pytype) :
  In (@AClass W c) (map AClass cs) -> In c cs.
Proof.
  intros H. apply in_map_iff in H as [c' [E Hin]].
  injection E as ->. exact Hin.
Qed.

(** With classes before it, [object] ends every check with [True]. *)
Lemma isinstance_object (before after : list (annotation W)) v (w : W) :
  Forall is_class before ->
  isinstance v (before ++ AClass Tobject :: after) w = (Return true, w).
Proof.
  induction 1 as [|a before Ha _ IH]; cbn [app isinstance].
  - assert (H : issubclass (type_of v) Tobject = true)
      by (destruct v; reflexivity).
    rewrite H. reflexivity.
  - destruct a as [c|check]; [|destruct Ha].
    destruct (issubclass (type_of v) c); [reflexivity | exact IH].
Qed.

Lemma instance_checks_true (types : list (annotation W)) (vs : list value) :
  (forall v w, isinstance v types w = (Return true, w)) ->
  forall w, instance_checks vs types w
            = (Return (map (fun _ => true) vs), w).
Proof.
  intros H. induction vs as [|v vs IH]; intros w;
    cbn [instance_checks map]; [reflexivity|].
  unfold bind at 1. rewrite H. unfold bind at 1. rewrite IH. reflexivity.
Qed.

Lemma all_true {A : Type} (l : list A) : all (map (fun _ => true) l) = true.
Proof. unfold all. induction l; cbn; auto. Qed.

Lemma param_types_of_classes (func : Task1.pyfunc W) :
  param_types_of (of_classes func) = map AClass (Task1.param_types_of func).
Proof.
  unfold param_types_of, Task1.param_types_of, of_classes.
  cbn [__annotations__].
  induction (Task1.__annotations__ func) as [|[k c] rest IH];
    cbn [map filter fst snd]; [reflexivity|].
  destruct (negb (eqb k (utf8 "return"))); cbn [map snd]; now rewrite IH.
Qed.

(** On functions annotated with classes only, the decorator of this
    section is the decorator of [Task1]. *)
Lemma strict_of_classes (func : Task1.pyfunc W) args kwargs w :
  __call__ (strict repr (of_classes func)) args kwargs w
  = Task1.__call__ (Task1.strict repr func) args kwargs w.
Proof.
  change (wrapper repr (of_classes func) args kwargs w
          = Task1.wrapper repr func args kwargs w).
  unfold wrapper, Task1.wrapper. cbv zeta.
  rewrite param_types_of_classes.
  unfold bind at 1. rewrite instance_checks_classes.
  unfold bind at 1. rewrite instance_checks_classes.
  rewrite map_map.
  destruct (negb (all _) || negb (all _)).
  - unfold error_message, Task1.error_message, of_classes.
    cbn [__name__]. reflexivity.
  - unfold of_classes. cbn [__call__]. reflexivity.
Qed.

End Facts.






End StrictAnySpec.

(* ================================================================= *)
(** ** task2: skipped groups, and labels that are not letters *)

Module GroupSpec.

Import Soup Task2 PyDict PyDictFacts Task2Facts MoreNotions
       TestParseWikiAnimals Fixtures MoreFixtures.

Lemma entries_app (lower : pystr -> pystr) flag alphabet gs1 gs2 :
  entries lower flag alphabet (gs1 ++ gs2)
  = entries lower flag alphabet gs1 ++ entries lower flag alphabet gs2.
Proof. unfold entries. apply flat_map_app. Qed.

Lemma group_entry_incomplete (lower : pystr -> pystr) flag alphabet g :
  find g (utf8 "h3") [] None = None \/ find g (utf8 "ul") [] None = None ->
  group_entry lower flag alphabet g = None.
Proof.
  intros [H | H]; unfold group_entry; rewrite H; [reflexivity|].
  destruct (find g (utf8 "h3") [] None); reflexivity.
Qed.

Lemma entries_without (lower : pystr -> pystr) flag alphabet before g after :
  find g (utf8 "h3") [] None = None \/ find g (utf8 "ul") [] None = None ->
  entries lower flag alphabet (before ++ g :: after)
  = entries lower flag alphabet (before ++ after).
Proof.
  intros H. rewrite !entries_app.
  change (g :: after) with ([g] ++ after). rewrite entries_app.
  unfold entries at 2. cbn [flat_map].
  rewrite (group_entry_incomplete lower flag alphabet g H). reflexivity.
Qed.

Lemma entry_in_entries (lower : pystr -> pystr) flag alphabet groups g e :
  In g groups -> group_entry lower flag alphabet g = Some e ->
  In e (entries lower flag alphabet groups).
Proof.
  intros Hg He. unfold entries. apply in_flat_map. exists g.
  split; [exact Hg|]. rewrite He. left. reflexivity.
Qed.

Lemma mentions_entry (es : list (pystr * Z)) k c :
  In (k, c) es -> mentions k es = true.
Proof.
  intros H. unfold mentions. apply existsb_exists. exists (k, c).
  split; [exact H | apply eqb_refl].
Qed.

Lemma total_ge_entry (es : list (pystr * Z)) k c :
  Forall (fun e => (0 <= snd e)%Z) es -> In (k, c) es -> (c <= total k es)%Z.
Proof.
  induction 1 as [|[k' c'] es Hc Hes IH]; [intros []|].
  cbn [snd] in Hc. cbn [total]. intros [E | Hin].
  - injection E as -> ->. rewrite eqb_refl.
    pose proof (ScraperMore.total_nonneg k Hes). lia.
  - specialize (IH Hin). destruct (eqb k' k); lia.
Qed.

(** C10.  A group without heading or without list is passed over in
    silence.  Nothing is logged, and the other groups of the page are
    still counted and merged: the instance ends with the entries of the
    other groups merged, in their order, into the mapping it had; every
    key holds its previous value plus the counts of the other groups for
    it; and each other group that has heading and list (and passes the
    filter) is among those entries, so that its letter ends with at
    least its previous value plus the number of its list items. *)
Theorem incomplete_group_is_skipped :
  forall (lower : pystr -> pystr) self soup category_div content_div
         before group after,
    find soup (utf8 "div") [(utf8 "id", utf8 "mw-pages")] None
    = Some category_div ->
    find category_div (utf8 "div") [(utf8 "class", utf8 "mw-content-ltr")]
         None = Some content_div ->
    find_all content_div (utf8 "div")
             [(utf8 "class", utf8 "mw-category-group")] None
    = before ++ group :: after ->
    find group (utf8 "h3") [] None = None
    \/ find group (utf8 "ul") [] None = None ->
    let others :=
      entries lower (_only_russian self) (_russian_letters self)
              (before ++ after) in
    let mapping := letters_result self in
    let mapping' := letters_result (fst (_parse_page lower self soup)) in
    snd (_parse_page lower self soup) = []
    /\ fst (_parse_page lower self soup)
       = with_letters_result self (fold_left add_entry others mapping)
    /\ (forall k,
           lookup mapping' k
           = if mentions k others
             then Some (get mapping k 0 + total k others)%Z
             else lookup mapping k)
    /\ (forall g letter_tag ul_tag,
           In g (before ++ after) ->
           find g (utf8 "h3") [] None = Some letter_tag ->
           find g (utf8 "ul") [] None = Some ul_tag ->
           _only_russian self
           && negb (contains (_russian_letters self)
                             (lower (strip (text letter_tag)))) = false ->
           let letter := strip (text letter_tag) in
           let count :=
             Z.of_nat (List.length (find_all ul_tag (utf8 "li") [] None)) in
           In (letter, count) others
           /\ exists v,
               lookup mapping' letter = Some v
               /\ (get mapping letter 0 + count <= v)%Z).
Proof.
  intros lower self soup category_div content_div before g after
         Hcat Hcontent Hgroups Hmissing others mapping mapping'.
  assert (Hstate : fst (_parse_page lower self soup)
                   = with_letters_result self
                       (fold_left add_entry others mapping)).
  { unfold _parse_page. rewrite Hcat, Hcontent. cbv zeta. rewrite Hgroups.
    cbn [fst]. rewrite fold_parse_group.
    rewrite (entries_without lower _ _ before g after Hmissing).
    reflexivity. }
  assert (Hlookup : forall k,
             lookup mapping' k
             = if mentions k others
               then Some (get mapping k 0 + total k others)%Z
               else lookup mapping k).
  { intros k. subst mapping'. rewrite Hstate.
    cbn [letters_result with_letters_result].
    apply lookup_fold_add_entry. }
  split; [|split; [|split]].
  - unfold _parse_page. rewrite Hcat, Hcontent. reflexivity.
  - exact Hstate.
  - exact Hlookup.
  - intros g' letter_tag ul_tag Hin Hh Hu Hpass letter count.
    assert (Hentry : In (letter, count) others).
    { apply (entry_in_entries lower _ _ _ g' Hin).
      unfold group_entry. rewrite Hh, Hu. cbv zeta. rewrite Hpass.
      reflexivity. }
    split; [exact Hentry|].
    exists (get mapping letter 0 + total letter others)%Z. split.
    + rewrite Hlookup, (mentions_entry _ _ _ Hentry). reflexivity.
    + pose proof (@total_ge_entry _ _ _
                    (ScraperMore.entries_nonneg lower (_only_russian self)
                       (_russian_letters self) (before ++ after))
                    Hentry) as Hge.
      apply Z.add_le_mono_l. exact Hge.
Qed.

Lemma incomplete_group_is_skipped_witness :
  _parse_page lower_basic (__init__ false) page_with_gap
  = (with_letters_result (__init__ false)
       [(utf8 "А", 1%Z); (utf8 "В", 1%Z)], []).
Proof.
  destruct (@incomplete_group_is_skipped lower_basic (__init__ false)
              page_with_gap
              (mw_pages [group "А" [li "/wiki/Акула" "Акула"];
                         heading_only;
                         group "В" [li "/wiki/Волк" "Волк"]])
              (el "div" [("class", "mw-content-ltr")%string]
                  [group "А" [li "/wiki/Акула" "Акула"];
                   heading_only;
                   group "В" [li "/wiki/Волк" "Волк"]])
              [group "А" [li "/wiki/Акула" "Акула"]]
              heading_only
              [group "В" [li "/wiki/Волк" "Волк"]])
    as (Hlog & Hstate & _).
  - vm_compute. reflexivity.
  - vm_compute. reflexivity.
  - vm_compute. reflexivity.
  - right. vm_compute. reflexivity.
  - rewrite (surjective_pairing (_parse_page _ _ _)), Hlog, Hstate.
    vm_compute. reflexivity.
Defined.

(** *** Labels that are not letters *)

(** C5 fails on the code.  With Russian-only filtering, a heading that
    holds only a no-break space is trimmed to the empty label, which is
    not one of the 33 letters, and yet its group is counted, under the
    empty key; the label [аб] is not one of the 33 letters either, and
    its group is counted too.  The filter tests [letter.lower() in
    russian_letters] with the alphabet as one string, which is membership
    only for labels of one letter. *)
Lemma russian_filter_counts_non_letters :
  (~ is_alphabet_letter (lower_basic (strip [160%N]))
   /\ letters_result
        (fst (_parse_page lower_basic (__init__ true) page_blank_label))
      = [([], 1%Z)])
  /\ (~ is_alphabet_letter (lower_basic (strip (utf8 "аб")))
      /\ letters_result
           (fst (_parse_page lower_basic (__init__ true)
                             page_two_letter_label))
         = [(utf8 "аб", 1%Z)]).
Proof.
  split; split; try (vm_compute; reflexivity);
    intros [c [H _]]; vm_compute in H; discriminate H.
Qed.

(** For a label whose lowercased form is one code point, the filter is
    membership in the alphabet, as C5 says: the group is merged when the
    letter is one of the 33, and passed over when it is not. *)
Lemma russian_filter_on_one_letter :
  forall (lower : pystr -> pystr) self group letter_tag ul_tag c,
    _only_russian self = true ->
    _russian_letters self = russian_letters ->
    find group (utf8 "h3") [] None = Some letter_tag ->
    find group (utf8 "ul") [] None = Some ul_tag ->
    lower (strip (text letter_tag)) = [c] ->
    let letter := strip (text letter_tag) in
    let count :=
      Z.of_nat (List.length (find_all ul_tag (utf8 "li") [] None)) in
    (In c russian_letters ->
     parse_group lower self group
     = with_letters_result self
         (set (letters_result self) letter
              (get (letters_result self) letter 0 + count)%Z))
    /\ (~ In c russian_letters -> parse_group lower self group = self).
Proof.
  intros lower self g letter_tag ul_tag c Hflag Halpha Hh Hu Hone
         letter count.
  subst letter count.
  unfold parse_group. rewrite Hh, Hu, Hflag, Halpha. cbv zeta.
  rewrite Hone. cbn [andb]. split.
  - intros Hin. apply ScraperSpec.infix_singleton, contains_spec in Hin.
    rewrite Hin. reflexivity.
  - intros Hout.
    destruct (contains russian_letters [c]) eqn:E; [|reflexivity].
    apply contains_spec, ScraperSpec.infix_singleton in E. contradiction.
Qed.

End GroupSpec.
